(** * chip.plugin: a netdata plugin for the C.H.I.P. power controller (AXP209)

    A shallow embedding of [chip.plugin.c].  The C program keeps its state in
    globals, talks to the I2C bus, prints to stdout/stderr and never returns
    from its main loop.  It is embedded as follows.

    - Integers are [Z]; every narrowing conversion of the C code is written
      out as a reduction modulo the width of the target type.
    - [float] and [double] values are [spec_float]s of the Standard Library,
      with the operations of [SpecFloat] at precision 24 and 53.
    - The [value_t] union is one 32-bit cell per dimension; its members are
      views of that cell (little-endian layout, as on the C.H.I.P.'s ARM).
    - Globals are threaded through a small monad that also collects the
      observable events of the run (bus traffic, output, sleeps) and can end
      the process with an exit status.
    - The environment (bus replies, clock readings) is a record of oracles.
    - The endless loop of [main] takes the number of iterations to run. *)

From Stdlib Require Import ZArith List String Ascii Bool Lia.
From Stdlib Require Import Strings.Byte DecimalString HexadecimalString.
From Stdlib Require Import Floats.SpecFloat.
Import ListNotations.

Local Open Scope string_scope.
Local Open Scope Z_scope.

(** ** C integer types *)

Definition u8 (x : Z) : Z := x mod 2 ^ 8.
Definition u16 (x : Z) : Z := x mod 2 ^ 16.
Definition u32 (x : Z) : Z := x mod 2 ^ 32.
Definition u64 (x : Z) : Z := x mod 2 ^ 64.

(** A C scalar used as a condition. *)
Definition c_true (x : Z) : bool := negb (x =? 0).

(** The value of a byte delivered by the bus. *)
Definition byte_val (b : byte) : Z := Z.of_N (Byte.to_N b).

(** ** The C library, as far as the program uses it *)

Module Libc.

Definition nl : string := String (ascii_of_nat 10) EmptyString.
Definition dq : string := String (ascii_of_nat 34) EmptyString.

(** [%u], [%PRIu8], [%PRIu16], [%PRIu64]: decimal digits of an unsigned value. *)
Definition fmt_u (n : Z) : string :=
  DecimalString.NilZero.string_of_uint (N.to_uint (Z.to_N n)).

(** [%#02x]: lower-case hexadecimal, prefixed by 0x unless the value is
    zero, zero-padded to two characters. *)
Definition fmt_hex (n : Z) : string :=
  if n =? 0 then "00"
  else "0x" ++ HexadecimalString.NilZero.string_of_uint (N.to_hex_uint (Z.to_N n)).

(** [isspace] in the C locale. *)
Definition isspace (c : ascii) : bool :=
  let n := Z.of_nat (nat_of_ascii c) in
  (n =? 32) || ((9 <=? n) && (n <=? 13)).

Definition digit_of (c : ascii) : option Z :=
  let n := Z.of_nat (nat_of_ascii c) in
  if (48 <=? n) && (n <=? 57) then Some (n - 48) else None.

(** The decimal digits at the head of [s], accumulated onto [acc]. *)
Fixpoint atoi_digits (s : string) (acc : Z) : Z :=
  match s with
  | EmptyString => acc
  | String c s' =>
      match digit_of c with
      | Some d => atoi_digits s' (10 * acc + d)
      | None => acc
      end
  end.

Definition atoi_signed (s : string) : Z :=
  match s with
  | String "-" s' => - atoi_digits s' 0
  | String "+" s' => atoi_digits s' 0
  | _ => atoi_digits s 0
  end.

(** [atoi]: skips white space, reads an optional sign and the decimal
    digits that follow, and ignores the rest of the string; a string with
    no digits there yields 0.  (A value outside [int] is undefined in C;
    the model keeps the mathematical value.) *)
Fixpoint atoi (s : string) : Z :=
  match s with
  | EmptyString => 0
  | String c s' => if isspace c then atoi s' else atoi_signed s
  end.

(** [n] rounded to the nearest multiple of [d], ties to even, divided by [d]. *)
Definition div_nearest_even (n d : Z) : Z :=
  let q := n / d in
  let r := n mod d in
  match 2 * r ?= d with
  | Lt => q
  | Gt => q + 1
  | Eq => if Z.even q then q else q + 1
  end.

Fixpoint zeros (n : nat) : string :=
  match n with
  | O => EmptyString
  | S k => String "0" (zeros k)
  end.

(** [s] padded with zeros on the left up to [width] characters. *)
Definition zero_pad (width : nat) (s : string) : string :=
  zeros (width - String.length s) ++ s.

(** The digits of [q / 10^p], a point, and the [p] digits of [q mod 10^p]. *)
Definition fixed_digits (p : nat) (q : Z) : string :=
  let scale := 10 ^ Z.of_nat p in
  fmt_u (q / scale) ++
  match p with
  | O => EmptyString
  | S _ => "." ++ zero_pad p (fmt_u (q mod scale))
  end.

Definition sign_str (s : bool) : string := if s then "-" else EmptyString.

(** [%.pf] of a [double]: the exact binary value, rounded to [p] decimals
    in the default rounding mode. *)
Definition fmt_f (p : nat) (x : spec_float) : string :=
  match x with
  | S754_nan => "nan"
  | S754_infinity s => sign_str s ++ "inf"
  | S754_zero s => sign_str s ++ fixed_digits p 0
  | S754_finite s m e =>
      let scale := 10 ^ Z.of_nat p in
      let q := if 0 <=? e then Zpos m * 2 ^ e * scale
               else div_nearest_even (Zpos m * scale) (2 ^ (- e)) in
      sign_str s ++ fixed_digits p q
  end.

End Libc.

(** ** IEEE 754 arithmetic of the target *)

Module Float.

(** [double] *)
Definition b64_of_Z (n : Z) : spec_float := binary_normalize 53 1024 n 0 false.
Definition b64_lit (num den : Z) : spec_float :=
  SFdiv 53 1024 (b64_of_Z num) (b64_of_Z den).
Definition b64_mul := SFmul 53 1024.
Definition b64_sub := SFsub 53 1024.

(** [float] *)
Definition b32_of_Z (n : Z) : spec_float := binary_normalize 24 128 n 0 false.
Definition b32_lit (num den : Z) : spec_float :=
  SFdiv 24 128 (b32_of_Z num) (b32_of_Z den).
Definition b32_mul := SFmul 24 128.
Definition b32_div := SFdiv 24 128.

(** Conversion of a [double] to [float] on assignment. *)
Definition b32_of_b64 (x : spec_float) : spec_float :=
  match x with
  | S754_finite s m e => binary_round 24 128 s m e
  | _ => x
  end.

Definition sign_bit (s : bool) : Z := if s then 2 ^ 31 else 0.

(** The 32 bits of a [float] (binary32 interchange format). *)
Definition bits_of_b32 (x : spec_float) : Z :=
  match x with
  | S754_zero s => sign_bit s
  | S754_infinity s => sign_bit s + 255 * 2 ^ 23
  | S754_nan => 255 * 2 ^ 23 + 2 ^ 22
  | S754_finite s m e =>
      sign_bit s +
      (if Zpos m <? 2 ^ 23 then Zpos m
       else (e + 150) * 2 ^ 23 + (Zpos m - 2 ^ 23))
  end.

(** The [float] held by 32 bits. *)
Definition b32_of_bits (w : Z) : spec_float :=
  let s := Z.testbit w 31 in
  let ex := (w / 2 ^ 23) mod 2 ^ 8 in
  let mant := w mod 2 ^ 23 in
  if ex =? 255 then
    if mant =? 0 then S754_infinity s else S754_nan
  else if ex =? 0 then
    match mant with
    | Zpos m => S754_finite s m (-149)
    | _ => S754_zero s
    end
  else
    match mant + 2 ^ 23 with
    | Zpos m => S754_finite s m (ex - 150)
    | _ => S754_zero s
    end.

End Float.

(** ** The catalog of dimensions and charts *)

Inductive Dimensions :=
| internaltemp
| batlevel
| chargelimit
| chargeterm
| batcharge
| batdischarge
| batvoltage
| acinvoltage
| acincurrent
| vbusvoltage
| vbusvoltagelimit
| vbuscurrent
| vbuscurrentlimit
| MaxDimensions.

(** The value of an enumerator. *)
Definition dim_index (d : Dimensions) : nat :=
  match d with
  | internaltemp => 0
  | batlevel => 1
  | chargelimit => 2
  | chargeterm => 3
  | batcharge => 4
  | batdischarge => 5
  | batvoltage => 6
  | acinvoltage => 7
  | acincurrent => 8
  | vbusvoltage => 9
  | vbusvoltagelimit => 10
  | vbuscurrent => 11
  | vbuscurrentlimit => 12
  | MaxDimensions => 13
  end%nat.

Definition Dimensions_eqb (a b : Dimensions) : bool :=
  Nat.eqb (dim_index a) (dim_index b).

Inductive DataType := Float | Uint8 | Uint16.

(** The conversion specifications that occur as [DataFormat]:
    ["%.1f"] and ["%.3f"] are [Fmt_f 1] and [Fmt_f 3]; [PRIu8] and [PRIu16]
    are both ["u"], so ["%" PRIu8] and ["%" PRIu16] are [Fmt_u]. *)
Inductive Format := Fmt_f (precision : nat) | Fmt_u.

Record DimensionDefinition := {
  dim_Name : string;
  dim_DataType : DataType;
  dim_DataFormat : Format;
  dim_Properties : string
}.

Definition quoted (s : string) : string := Libc.dq ++ s ++ Libc.dq.

Definition gDimensionDefinitions : list DimensionDefinition := [
  {| dim_Name := "internaltemp"; dim_DataType := Float; dim_DataFormat := Fmt_f 1;
     dim_Properties := quoted "Internal Temp" ++ " absolute" |};
  {| dim_Name := "batlevel"; dim_DataType := Uint8; dim_DataFormat := Fmt_u;
     dim_Properties := quoted "Charge" ++ " absolute" |};
  {| dim_Name := "chargelimit"; dim_DataType := Uint16; dim_DataFormat := Fmt_u;
     dim_Properties := quoted "Charge Limit" ++ " absolute" |};
  {| dim_Name := "chargeterm"; dim_DataType := Uint16; dim_DataFormat := Fmt_u;
     dim_Properties := quoted "Charge Termination Limit" ++ " absolute" |};
  {| dim_Name := "batcharge"; dim_DataType := Float; dim_DataFormat := Fmt_f 1;
     dim_Properties := quoted "Batt Charge" ++ " absolute" |};
  {| dim_Name := "batdischarge"; dim_DataType := Uint16; dim_DataFormat := Fmt_u;
     dim_Properties := quoted "Batt Discharge" ++ " absolute" |};
  {| dim_Name := "batvoltage"; dim_DataType := Float; dim_DataFormat := Fmt_f 1;
     dim_Properties := quoted "Voltage" ++ " absolute" |};
  {| dim_Name := "acinvoltage"; dim_DataType := Float; dim_DataFormat := Fmt_f 1;
     dim_Properties := quoted "Voltage" ++ " absolute" |};
  {| dim_Name := "acincurrent"; dim_DataType := Float; dim_DataFormat := Fmt_f 3;
     dim_Properties := quoted "Current" ++ " absolute" |};
  {| dim_Name := "vbusvoltage"; dim_DataType := Float; dim_DataFormat := Fmt_f 1;
     dim_Properties := quoted "Voltage" ++ " absolute" |};
  {| dim_Name := "vbusvoltagelimit"; dim_DataType := Uint16; dim_DataFormat := Fmt_u;
     dim_Properties := quoted "Limit" ++ " absolute" |};
  {| dim_Name := "vbuscurrent"; dim_DataType := Float; dim_DataFormat := Fmt_f 3;
     dim_Properties := quoted "Current" ++ " absolute" |};
  {| dim_Name := "vbuscurrentlimit"; dim_DataType := Uint16; dim_DataFormat := Fmt_u;
     dim_Properties := quoted "Limit" ++ " absolute" |}
]%string.

(** [gDimensionDefinitions[index]].  The program indexes the table with
    dimensions other than [MaxDimensions] only; there the default is never
    returned. *)
Definition dimension_definition (index : Dimensions) : DimensionDefinition :=
  nth (dim_index index) gDimensionDefinitions
      {| dim_Name := EmptyString; dim_DataType := Float;
         dim_DataFormat := Fmt_u; dim_Properties := EmptyString |}.

Definition MAX_CHART_DIMENSIONS : nat := 4.
Definition EMPTY_DIM : Dimensions := MaxDimensions.

Record ChartDefinition := {
  chart_Name : string;
  chart_Properties : string;
  chart_Dimensions : list Dimensions       (* MAX_CHART_DIMENSIONS entries *)
}.

Definition chart_properties (title units : string) : string :=
  quoted EmptyString ++ " " ++ quoted title ++ " " ++ quoted units.

Definition gChartDefinitions : list ChartDefinition := [
  {| chart_Name := "Chip.temps";
     chart_Properties := chart_properties "Temperature" "Degrees (F)";
     chart_Dimensions := [internaltemp; EMPTY_DIM; EMPTY_DIM; EMPTY_DIM] |};
  {| chart_Name := "Chip.batterylevel";
     chart_Properties := chart_properties "Battery Level" "%";
     chart_Dimensions := [batlevel; EMPTY_DIM; EMPTY_DIM; EMPTY_DIM] |};
  {| chart_Name := "Chip.batterycurrent";
     chart_Properties := chart_properties "Battery Current" "mA";
     chart_Dimensions := [chargelimit; chargeterm; batcharge; batdischarge] |};
  {| chart_Name := "Chip.batteryvoltage";
     chart_Properties := chart_properties "Battery Voltage" "mV";
     chart_Dimensions := [batvoltage; EMPTY_DIM; EMPTY_DIM; EMPTY_DIM] |};
  {| chart_Name := "Chip.acinvoltage";
     chart_Properties := chart_properties "ACIN Voltage" "mV";
     chart_Dimensions := [acinvoltage; EMPTY_DIM; EMPTY_DIM; EMPTY_DIM] |};
  {| chart_Name := "Chip.acincurrent";
     chart_Properties := chart_properties "ACIN Current" "mA";
     chart_Dimensions := [acincurrent; EMPTY_DIM; EMPTY_DIM; EMPTY_DIM] |};
  {| chart_Name := "Chip.vbusvoltage";
     chart_Properties := chart_properties "VBUS Voltage" "mV";
     chart_Dimensions := [vbusvoltage; vbusvoltagelimit; EMPTY_DIM; EMPTY_DIM] |};
  {| chart_Name := "Chip.vbuscurrent";
     chart_Properties := chart_properties "VBUS Current" "mA";
     chart_Dimensions := [vbuscurrent; vbuscurrentlimit; EMPTY_DIM; EMPTY_DIM] |}
]%string.

Definition NUM_CHARTS : nat := List.length gChartDefinitions.

(** [gChartDefinitions[chartindex]], for [chartindex < NUM_CHARTS]. *)
Definition chart_definition (chartindex : nat) : ChartDefinition :=
  nth chartindex gChartDefinitions
      {| chart_Name := EmptyString; chart_Properties := EmptyString;
         chart_Dimensions := [] |}.

(** [gChartDefinitions[chartindex].Dimensions[dimindex]], for
    [dimindex < MAX_CHART_DIMENSIONS]. *)
Definition chart_dimension (chartindex dimindex : nat) : Dimensions :=
  nth dimindex (chart_Dimensions (chart_definition chartindex)) EMPTY_DIM.

(** ** C.H.I.P. hardware-specific constants *)

Definition I2C_DEVICE : string := "i2c-0".
Definition AXP209_ADDRESS : Z := 0x34.

(** ** Process state, observable events, environment *)

(** The [value_t] union: four bytes, kept as the 32-bit number they form in
    little-endian order.  [asUint8] is the lowest byte, [asUint16] the two
    lowest bytes, [asFloat] all four. *)
Definition value_t := Z.

Definition asFloat (cell : value_t) : spec_float := Float.b32_of_bits cell.
Definition asUint8 (cell : value_t) : Z := cell mod 2 ^ 8.
Definition asUint16 (cell : value_t) : Z := cell mod 2 ^ 16.

Definition set_asFloat (cell : value_t) (value : spec_float) : value_t :=
  Float.bits_of_b32 value.
Definition set_asUint8 (cell : value_t) (value : Z) : value_t :=
  cell - cell mod 2 ^ 8 + value.
Definition set_asUint16 (cell : value_t) (value : Z) : value_t :=
  cell - cell mod 2 ^ 16 + value.

(** The globals of the program. *)
Record globals := mkGlobals {
  gI2c : Z;
  gUpdateEvery : Z;
  gData : list value_t;
  gIsValid : Z
}.

Definition set_gI2c (v : Z) (g : globals) : globals :=
  mkGlobals v (gUpdateEvery g) (gData g) (gIsValid g).
Definition set_gUpdateEvery (v : Z) (g : globals) : globals :=
  mkGlobals (gI2c g) v (gData g) (gIsValid g).
Definition set_gData (v : list value_t) (g : globals) : globals :=
  mkGlobals (gI2c g) (gUpdateEvery g) v (gIsValid g).
Definition set_gIsValid (v : Z) (g : globals) : globals :=
  mkGlobals (gI2c g) (gUpdateEvery g) (gData g) v.

(** Globals of a C program start out zeroed. *)
Definition initial_globals : globals :=
  mkGlobals 0 0 (repeat 0 (dim_index MaxDimensions)) 0.

(** [l] with element [n] replaced by [v]. *)
Fixpoint update_nth {A : Type} (n : nat) (v : A) (l : list A) : list A :=
  match l, n with
  | [], _ => []
  | _ :: l', O => v :: l'
  | x :: l', S n' => x :: update_nth n' v l'
  end.

(** What the process does to the outside world. *)
Inductive event :=
| SysOpen (path : string)           (* open(path, O_RDWR) *)
| SysIoctl (address : Z)            (* ioctl(gI2c, I2C_SLAVE_FORCE, address) *)
| BusWrite (bytes : list Z)         (* write(gI2c, bytes, n) *)
| BusRead                           (* read(gI2c, buffer, 1) *)
| Printf (text : string)            (* text written to stdout by one printf *)
| Fflush                            (* fflush(stdout) *)
| Eprintf (text : string)           (* text written to stderr *)
| Usleep (usec : Z).                (* usleep(usec) *)

(** What the device answers when a register is queried: the byte, or a
    failure of the [write] that sends the address, or of the [read]. *)
Inductive reply := Byte (b : byte) | QueryFails | ReadFails.

Definition bus := Z -> reply.

Record timespec := { tv_sec : Z; tv_nsec : Z }.

(** The outside world.  Within the start-up sequence and within each cycle
    every register is read at most once, so the replies of one phase are a
    function of the register address. *)
Record env := {
  open_result : Z;                   (* what [open] returns *)
  ioctl_result : Z;                  (* what [ioctl] returns *)
  adc_bus : bus;                     (* replies during [enable_adc] *)
  adc_write_ok : Z -> bool;          (* does writing this register succeed *)
  cycle_bus : nat -> bus;            (* replies during the i-th cycle *)
  clock : nat -> timespec            (* the k-th reading of CLOCK_MONOTONIC *)
}.

(** ** The monad: globals, event log, exit *)

Inductive outcome (A : Type) :=
| Ret (a : A) (g : globals)         (* control continues *)
| Exit (status : Z).                (* the process has ended *)

Arguments Ret {A} a g.
Arguments Exit {A} status.

Definition M (A : Type) : Type := globals -> list event * outcome A.

Definition ret {A : Type} (a : A) : M A := fun g => ([], Ret a g).

Definition bind {A B : Type} (m : M A) (k : A -> M B) : M B :=
  fun g =>
    match m g with
    | (t, Ret a g') => let (t', o) := k a g' in ((t ++ t')%list, o)
    | (t, Exit status) => (t, Exit status)
    end.

Notation "x <- m ;; k" := (bind m (fun x => k))
  (at level 61, m at next level, right associativity).
Notation "m ;; k" := (bind m (fun _ => k))
  (at level 61, right associativity).

Definition emit (e : event) : M unit := fun g => ([e], Ret tt g).
Definition exit {A : Type} (status : Z) : M A := fun _ => ([], Exit status).
Definition get {A : Type} (f : globals -> A) : M A := fun g => ([], Ret (f g) g).
Definition put (f : globals -> globals) : M unit := fun g => ([], Ret tt (f g)).

(** [for (i = from; i < from + n; i++) body(i)] *)
Fixpoint for_loop (n from : nat) (body : nat -> M unit) : M unit :=
  match n with
  | O => ret tt
  | S n' => body from ;; for_loop n' (S from) body
  end.

(** ** The program *)

Definition valid_bit (index : Dimensions) : Z :=
  Z.shiftl 1 (Z.of_nat (dim_index index)).

Definition mark_valid (index : Dimensions) (g : globals) : globals :=
  set_gIsValid (u32 (Z.lor (gIsValid g) (valid_bit index))) g.

Definition store_cell (index : Dimensions) (f : value_t -> value_t) (g : globals) : globals :=
  set_gData (update_nth (dim_index index) (f (nth (dim_index index) (gData g) 0)) (gData g)) g.

Definition save_data_float (index : Dimensions) (value : spec_float) : M unit :=
  put (store_cell index (fun cell => set_asFloat cell value));;
  put (mark_valid index).

Definition save_data_uint8 (index : Dimensions) (value : Z) : M unit :=
  put (store_cell index (fun cell => set_asUint8 cell value));;
  put (mark_valid index).

Definition save_data_uint16 (index : Dimensions) (value : Z) : M unit :=
  put (store_cell index (fun cell => set_asUint16 cell value));;
  put (mark_valid index).

Definition is_valid (index : Dimensions) (g : globals) : bool :=
  negb (Z.land (gIsValid g) (valid_bit index) =? 0).

(** [format_data_value]: the text left in [buffer].  The [float] member is
    promoted to [double] (exactly) when passed to [sprintf]; the two integer
    members are promoted to [int]. *)
Definition format_data_value (index : Dimensions) (g : globals) : string :=
  if Z.land (gIsValid g) (valid_bit index) =? 0 then EmptyString
  else
    let cell := nth (dim_index index) (gData g) 0 in
    match dim_DataType (dimension_definition index),
          dim_DataFormat (dimension_definition index) with
    | Float, Fmt_f p => Libc.fmt_f p (asFloat cell)
    | Uint8, Fmt_u => Libc.fmt_u (asUint8 cell)
    | Uint16, Fmt_u => Libc.fmt_u (asUint16 cell)
    | _, _ => EmptyString   (* no entry of the table pairs these *)
    end.

Definition read_register_value (b : bus) (address : Z) : M Z :=
  emit (BusWrite [address]);;
  match b address with
  | QueryFails =>
      emit (Eprintf ("Unable to query for register " ++ Libc.fmt_hex address ++ Libc.nl));;
      exit 1
  | ReadFails =>
      emit BusRead;;
      emit (Eprintf ("Unable to read register " ++ Libc.fmt_hex address ++ Libc.nl));;
      exit 1
  | Byte v =>
      emit BusRead;;
      ret (byte_val v)
  end.

Definition write_register_value (e : env) (address value : Z) : M unit :=
  emit (BusWrite [address; value]);;
  if adc_write_ok e address then ret tt
  else
    emit (Eprintf ("Unable to write register " ++ Libc.fmt_hex address ++ Libc.nl));;
    exit 1.

Definition enable_adc (e : env) : M Z :=
  emit (SysIoctl AXP209_ADDRESS);;
  let err := ioctl_result e in
  if err <? 0 then ret err
  else
    value <- read_register_value (adc_bus e) 0x82;;
    let value := u8 value in
    wait <- (if negb (Z.land value 0xCC =? 0xCC) then
               write_register_value e 0x82 (u8 (Z.lor value 0xCC));;
               ret true
             else ret false);;
    value <- read_register_value (adc_bus e) 0x83;;
    let value := u8 value in
    wait <- (if negb (Z.land value 0x80 =? 0x80) then
               write_register_value e 0x83 (u8 (Z.lor value 0x80));;
               ret true
             else ret wait);;
    (if wait : bool then emit (Usleep 40000) else ret tt);;
    ret 0.

Definition read_multi_value (b : bus) (highaddress lowaddress : Z) : M Z :=
  highvalue <- read_register_value b highaddress;;
  lowvalue <- read_register_value b lowaddress;;
  ret (u16 (Z.lor (Z.shiftl (u16 highvalue) 4) (Z.land (u16 lowvalue) 0xF))).

Import Float.

Definition gather_chart_data (b : bus) : M unit :=
  put (set_gData (repeat 0 (dim_index MaxDimensions)));;         (* memset *)
  put (set_gIsValid 0);;

  power_status <- read_register_value b 0x01;;
  let power_status := u8 power_status in
  charge_ctl <- read_register_value b 0x33;;
  let charge_ctl := u8 charge_ctl in

  raw <- read_multi_value b 0x5E 0x5F;;
  (* evaluated in double, then converted to float *)
  let temp := b32_of_b64
                (b64_sub (b64_mul (b64_of_Z raw) (b64_lit 18 100)) (b64_lit 22846 100)) in
  save_data_float internaltemp temp;;

  (if c_true (Z.land charge_ctl 0x80) then
     let charge_current_limit := u16 (u16 (Z.land charge_ctl 0xf) * 100 + 300) in
     save_data_uint16 chargelimit charge_current_limit;;
     let charge_termination_limit := u16 (Z.quot charge_current_limit 10) in
     let charge_termination_limit :=
       if c_true (Z.land charge_ctl 0x10)
       then u16 (charge_termination_limit + Z.shiftr charge_termination_limit 1)
       else charge_termination_limit in
     save_data_uint16 chargeterm charge_termination_limit
   else ret tt);;

  (if c_true (Z.land power_status 0x20) then
     raw <- read_multi_value b 0x7A 0x7B;;
     let bat_charge := b32_div (b32_of_Z raw) (b32_of_Z 2) in
     save_data_float batcharge bat_charge;;

     (* the two reads are operands of one [|]; taken left to right *)
     high <- read_register_value b 0x7C;;
     low <- read_register_value b 0x7D;;
     let bat_discharge := u16 (Z.lor (Z.shiftl high 5) (Z.land low 0x1F)) in
     save_data_uint16 batdischarge bat_discharge;;

     gauge <- read_register_value b 0xB9;;
     let bat_gauge := u8 (Z.land gauge 0x7F) in
     save_data_uint8 batlevel bat_gauge;;

     raw <- read_multi_value b 0x78 0x79;;
     let bat_voltage := b32_mul (b32_of_Z raw) (b32_lit 11 10) in
     save_data_float batvoltage bat_voltage
   else ret tt);;

  (if c_true (Z.land power_status 0x80) then
     raw <- read_multi_value b 0x56 0x57;;
     let acin_voltage := b32_mul (b32_of_Z raw) (b32_lit 17 10) in
     save_data_float acinvoltage acin_voltage;;

     raw <- read_multi_value b 0x58 0x59;;
     let acin_current := b32_mul (b32_of_Z raw) (b32_lit 625 1000) in
     save_data_float acincurrent acin_current
   else ret tt);;

  (if c_true (Z.land power_status 0x20) then
     raw <- read_multi_value b 0x5A 0x5B;;
     let vbus_voltage := b32_mul (b32_of_Z raw) (b32_lit 17 10) in
     save_data_float vbusvoltage vbus_voltage;;

     raw <- read_multi_value b 0x5C 0x5D;;
     let vbus_current := b32_mul (b32_of_Z raw) (b32_lit 375 1000) in
     save_data_float vbuscurrent vbus_current
   else ret tt);;

  vbus_ipsout <- read_register_value b 0x30;;
  let vbus_ipsout := u8 vbus_ipsout in
  (if c_true (Z.land vbus_ipsout 0x40) then
     let vbus_voltage_limit := u16 (Z.shiftr vbus_ipsout 3 * 100 + 4000) in
     (* the uint16_t argument is converted to the float parameter *)
     save_data_float vbusvoltagelimit (b32_of_Z vbus_voltage_limit)
   else ret tt);;

  (if Z.land vbus_ipsout 0x3 <? 3 then
     let targets := [900; 500; 100] in
     let vbus_current_limit := nth (Z.to_nat (Z.land vbus_ipsout 0x3)) targets 0 in
     save_data_uint16 vbuscurrentlimit vbus_current_limit
   else ret tt).

Definition print_charts_preamble : M unit :=
  for_loop NUM_CHARTS 0 (fun chartindex =>
    emit (Printf ("CHART " ++ chart_Name (chart_definition chartindex) ++ " "
                  ++ chart_Properties (chart_definition chartindex) ++ Libc.nl));;
    for_loop MAX_CHART_DIMENSIONS 0 (fun dimindex =>
      let targetindex := chart_dimension chartindex dimindex in
      if negb (Dimensions_eqb targetindex EMPTY_DIM) then
        emit (Printf ("DIMENSION " ++ dim_Name (dimension_definition targetindex) ++ " "
                      ++ dim_Properties (dimension_definition targetindex) ++ Libc.nl))
      else ret tt));;
  emit Fflush.

Definition print_chart_data (delayus : Z) : M unit :=
  for_loop NUM_CHARTS 0 (fun chartindex =>
    (* Chart prologue *)
    emit (Printf ("BEGIN " ++ chart_Name (chart_definition chartindex)));;
    (if c_true delayus then emit (Printf (" " ++ Libc.fmt_u delayus ++ Libc.nl))
     else emit (Printf Libc.nl));;
    (* Dimension data *)
    for_loop MAX_CHART_DIMENSIONS 0 (fun dimindex =>
      let targetindex := chart_dimension chartindex dimindex in
      if negb (Dimensions_eqb targetindex EMPTY_DIM) then
        buffer <- get (format_data_value targetindex);;
        emit (Printf ("SET " ++ dim_Name (dimension_definition targetindex) ++ " = "
                      ++ buffer ++ Libc.nl))
      else ret tt);;
    (* Chart epilogue *)
    emit (Printf ("END" ++ Libc.nl)));;
  emit Fflush.

(** [(uint64_t)(t.tv_sec * 1000000L + t.tv_nsec / 1000L)].  The arithmetic
    in [long] is taken exactly: it is defined in C only while it does not
    overflow. *)
Definition timespec_us (t : timespec) : Z :=
  u64 (tv_sec t * 1000000 + Z.quot (tv_nsec t) 1000).

(** The body of [while (true)], [iterations] times.  [i] counts the
    iterations already run; [endtimeus] is the local of that name.  The
    argument of [usleep] is the value of the [uint64_t] expression
    [gUpdateEvery * 1000000L - delta]. *)
Fixpoint main_loop (e : env) (iterations i : nat) (endtimeus : Z) : M unit :=
  match iterations with
  | O => ret tt
  | S iterations' =>
      let starttime := clock e (2 * i) in
      let starttimeus := timespec_us starttime in
      let delta := if negb (endtimeus =? 0) then u64 (starttimeus - endtimeus) else 0 in
      gather_chart_data (cycle_bus e i);;
      print_chart_data delta;;
      let endtime := clock e (2 * i + 1) in
      let endtimeus := timespec_us endtime in
      let delta := u64 (endtimeus - starttimeus) in
      every <- get gUpdateEvery;;
      emit (Usleep (u64 (every * 1000000 - delta)));;
      main_loop e iterations' (S i) endtimeus
  end.

Definition usage (argv0 : string) : string :=
  "Usage: " ++ argv0 ++ " [update_frequency]" ++ Libc.nl.

(** Lines 385-393 of [main]: the optional argument. *)
Definition parse_arguments (argv : list string) : M unit :=
  match argv with
  | argv0 :: argv1 :: _ =>                                   (* argc >= 2 *)
      put (set_gUpdateEvery (u16 (Libc.atoi argv1)));;
      every <- get gUpdateEvery;;
      if (every <? 1) || (360 <? every) then
        emit (Eprintf (usage argv0));;
        exit 1
      else ret tt
  | _ => put (set_gUpdateEvery 1)
  end.

(** Lines 385-410 of [main]: arguments, bus, ADC, preamble.  [return 1]
    ends the process with status 1, like [exit(1)]. *)
Definition startup (e : env) (argv : list string) : M unit :=
  parse_arguments argv;;
  (* Connect to the I2C bus and ensure the ADC is enabled. *)
  emit (SysOpen ("/dev/" ++ I2C_DEVICE));;
  put (set_gI2c (open_result e));;
  fd <- get gI2c;;
  if fd <? 0 then
    emit (Eprintf ("Unable to open a handle to the I2C bus" ++ Libc.nl));;
    exit 1
  else
    err <- enable_adc e;;
    if err <? 0 then
      emit (Eprintf ("Unable to communicate with AXP209" ++ Libc.nl));;
      exit 1
    else
      (* Emit the chart and dimension definitions. *)
      print_charts_preamble.

(** [main], with the loop cut after [iterations] iterations; [endtimeus]
    starts at 0. *)
Definition main (e : env) (argv : list string) (iterations : nat) : M unit :=
  startup e argv;;
  (* Main loop: query and emit the values once per iteration. *)
  main_loop e iterations 0 0.

(** A run of the process from its initial state. *)
Definition run (e : env) (argv : list string) (iterations : nat)
  : list event * outcome unit :=
  main e argv iterations initial_globals.

(** ** Reading a trace *)

(** Everything written to stderr, in order. *)
Fixpoint stderr (t : list event) : string :=
  match t with
  | [] => EmptyString
  | Eprintf s :: t' => s ++ stderr t'
  | _ :: t' => stderr t'
  end.

(** The arguments of the calls of [usleep], in order. *)
Fixpoint sleeps (t : list event) : list Z :=
  match t with
  | [] => []
  | Usleep us :: t' => us :: sleeps t'
  | _ :: t' => sleeps t'
  end.

(** The texts printed right after each ["BEGIN <chart id>"]: a space, the
    hint and a newline, or the newline alone. *)
Fixpoint begin_hints (t : list event) : list string :=
  match t with
  | [] => []
  | Printf s :: t' =>
      match t' with
      | Printf h :: _ => if String.prefix "BEGIN " s then h :: begin_hints t' else begin_hints t'
      | _ => begin_hints t'
      end
  | _ :: t' => begin_hints t'
  end.

(** ** Vocabulary of the statements *)

(** The sample of a dimension after a cycle: its cell when the dimension is
    marked valid, nothing otherwise. *)
Definition sample (index : Dimensions) (g : globals) : option value_t :=
  if is_valid index g then Some (nth (dim_index index) (gData g) 0) else None.

(** The part of a trace that concerns stdout. *)
Definition is_output (ev : event) : bool :=
  match ev with
  | Printf _ | Fflush => true
  | _ => false
  end.

Definition output (t : list event) : list event := filter is_output t.

(** Weakest precondition of a computation started in [g]: every event it
    emits satisfies [T]; if control continues, the result and the globals
    satisfy [Q]; if the process ends, its status is 1. *)
Definition wp {A : Type} (m : M A) (T : event -> Prop)
    (Q : A -> globals -> Prop) (g : globals) : Prop :=
  Forall T (fst (m g)) /\
  match snd (m g) with
  | Ret a g' => Q a g'
  | Exit status => status = 1
  end.

(** Events that leave stdout alone. *)
Definition silent_event (ev : event) : Prop := is_output ev = false.

(** Events that write nothing to stdout and do not sleep: bus traffic and
    diagnostics. *)
Definition bus_event (ev : event) : Prop :=
  match ev with
  | BusWrite _ | BusRead | Eprintf _ => True
  | _ => False
  end.

(** The dimensions a chart shows: its entries other than [EMPTY_DIM], in
    the order of the declaration. *)
Definition chart_members (c : ChartDefinition) : list Dimensions :=
  filter (fun d => negb (Dimensions_eqb d EMPTY_DIM)) (chart_Dimensions c).

Definition chart_line (c : ChartDefinition) : string :=
  "CHART " ++ chart_Name c ++ " " ++ chart_Properties c ++ Libc.nl.

Definition dimension_line (d : Dimensions) : string :=
  "DIMENSION " ++ dim_Name (dimension_definition d) ++ " "
  ++ dim_Properties (dimension_definition d) ++ Libc.nl.

(** The preamble: for every chart of the catalog, in order, its header and
    one line per member, in order; then a flush. *)
Definition preamble_events : list event :=
  (flat_map (fun c => Printf (chart_line c)
                      :: map (fun d => Printf (dimension_line d)) (chart_members c))
            gChartDefinitions
   ++ [Fflush])%list.

(** What follows the chart id on a BEGIN line: the hint, unless it is 0. *)
Definition begin_suffix (delayus : Z) : string :=
  if delayus =? 0 then Libc.nl else " " ++ Libc.fmt_u delayus ++ Libc.nl.

Definition set_line (g : globals) (d : Dimensions) : string :=
  "SET " ++ dim_Name (dimension_definition d) ++ " = "
  ++ format_data_value d g ++ Libc.nl.

(** One chart of a frame: BEGIN, one SET per member, END. *)
Definition chart_frame_events (delayus : Z) (g : globals) (c : ChartDefinition)
  : list event :=
  ([Printf ("BEGIN " ++ chart_Name c); Printf (begin_suffix delayus)]
   ++ map (fun d => Printf (set_line g d)) (chart_members c)
   ++ [Printf ("END" ++ Libc.nl)])%list.

(** A frame: every chart of the catalog, in order; then a flush. *)
Definition frame_events (delayus : Z) (g : globals) : list event :=
  (flat_map (chart_frame_events delayus g) gChartDefinitions ++ [Fflush])%list.

(** A line of the preamble. *)
Definition is_preamble_event (ev : event) : bool :=
  match ev with
  | Printf s => String.prefix "CHART " s || String.prefix "DIMENSION " s
  | _ => false
  end.

(** Time stamps of the i-th iteration, in microseconds. *)
Definition cycle_start_us (e : env) (i : nat) : Z := timespec_us (clock e (2 * i)).
Definition cycle_end_us (e : env) (i : nat) : Z := timespec_us (clock e (2 * i + 1)).

(** The local [endtimeus] at the top of the i-th iteration. *)
Definition previous_end_us (e : env) (i : nat) : Z :=
  match i with
  | O => 0
  | S j => cycle_end_us e j
  end.

(** The first [delta] of the i-th iteration, passed to [print_chart_data]. *)
Definition elapsed_us (e : env) (i : nat) : Z :=
  if negb (previous_end_us e i =? 0)
  then u64 (cycle_start_us e i - previous_end_us e i)
  else 0.

(** The second [delta] of the i-th iteration: what the iteration took. *)
Definition processing_us (e : env) (i : nat) : Z :=
  u64 (cycle_end_us e i - cycle_start_us e i).

(** The argument of [usleep] in the i-th iteration. *)
Definition sleep_us (every : Z) (e : env) (i : nat) : Z :=
  u64 (every * 1000000 - processing_us e i).

(** The frames of the iterations [from], [from + 1], ... whose globals at
    the time of printing are [states]. *)
Definition frames_from (e : env) (from : nat) (states : list globals) : list event :=
  flat_map (fun ig => frame_events (elapsed_us e (fst ig)) (snd ig))
           (combine (seq from (List.length states)) states).

(** The computation, started in [g], returns (it does not end the process). *)
Definition returns {A : Type} (m : M A) (g : globals) : Prop :=
  exists t a g', m g = (t, Ret a g').

(** A bus that answers every query. *)
Definition responsive (b : bus) : Prop := forall address, exists x, b address = Byte x.

(** [g'] is what a cycle on the bus [b] left in the globals. *)
Definition decoded_from (b : bus) (g' : globals) : Prop :=
  exists t g, gather_chart_data b g = (t, Ret tt g').

(** ** Concrete environments, for examples *)

(** Battery and AC present (register 0x01 = 0xA0), charge control 0x9F,
    bus-input register 0x60, temperature registers 0x12 and 0x3F. *)
Definition demo_bus : bus :=
  fun address =>
    Byte (if address =? 0x01 then xa0
          else if address =? 0x33 then x9f
          else if address =? 0x30 then x60
          else if address =? 0x5E then x12
          else x3f).

(** The globals after one cycle on [demo_bus]. *)
Definition demo_samples : globals :=
  match snd (gather_chart_data demo_bus initial_globals) with
  | Ret _ g' => g'
  | Exit _ => initial_globals
  end.

Definition seconds (sec msec : Z) : timespec :=
  {| tv_sec := sec; tv_nsec := msec * 1000000 |}.

(** A healthy system: the bus opens, the ADC is already enabled, every
    cycle sees [demo_bus].  Cycles start at 10.0 s, 11.0 s and 12.0 s and
    end at 10.2 s, 11.3 s and 12.5 s. *)
Definition demo_env : env := {|
  open_result := 3;
  ioctl_result := 0;
  adc_bus := fun _ => Byte xff;
  adc_write_ok := fun _ => true;
  cycle_bus := fun _ => demo_bus;
  clock := fun k => nth k [seconds 10 0; seconds 10 200;
                           seconds 11 0; seconds 11 300;
                           seconds 12 0; seconds 12 500] (seconds 13 0)
|}.

(** The same system when the first cycle takes 1.5 s: it starts at 5.0 s
    and ends at 6.5 s. *)
Definition overrun_env : env := {|
  open_result := 3;
  ioctl_result := 0;
  adc_bus := fun _ => Byte xff;
  adc_write_ok := fun _ => true;
  cycle_bus := fun _ => demo_bus;
  clock := fun k => nth k [seconds 5 0; seconds 6 500] (seconds 7 0)
|}.

(** The globals of [demo_env] after one or more cycles. *)
Definition demo_final : globals :=
  mkGlobals 3 1 (gData demo_samples) (gIsValid demo_samples).

(** ** Vocabulary of the further properties *)

(** The globals as their C types allow them: [gData] has one cell per
    dimension, each cell is four bytes, [gIsValid] is a [uint32_t]. *)
Definition globals_typed (g : globals) : Prop :=
  List.length (gData g) = dim_index MaxDimensions /\
  Forall (fun cell => 0 <= cell < 2 ^ 32) (gData g) /\
  0 <= gIsValid g < 2 ^ 32.

(** A [float] of the target: a binary32 number. *)
Definition is_float (x : spec_float) : Prop := valid_binary 24 128 x = true.

(** A system whose I2C device node cannot be opened, and one whose device
    cannot be addressed. *)
Definition no_bus_env : env := {|
  open_result := -1;
  ioctl_result := 0;
  adc_bus := fun _ => Byte xff;
  adc_write_ok := fun _ => true;
  cycle_bus := fun _ => demo_bus;
  clock := clock demo_env
|}.

Definition no_device_env : env := {|
  open_result := 3;
  ioctl_result := -1;
  adc_bus := fun _ => Byte xff;
  adc_write_ok := fun _ => true;
  cycle_bus := fun _ => demo_bus;
  clock := clock demo_env
|}.

(** An event other than a diagnostic on stderr. *)
Definition not_diagnostic (ev : event) : Prop :=
  match ev with
  | Eprintf _ => False
  | _ => True
  end.

(** A well-reported result: if control continues, no diagnostic has been
    printed; if the process has ended, its status is 1 and the last thing it
    did was to print one diagnostic, which satisfies [P], the only one of
    the trace. *)
Definition diagnosed {A : Type} (P : string -> Prop) (r : list event * outcome A) : Prop :=
  match r with
  | (t, Ret _ _) => Forall not_diagnostic t
  | (t, Exit status) =>
      status = 1 /\
      exists t0 msg, t = (t0 ++ [Eprintf msg])%list /\ P msg /\ Forall not_diagnostic t0
  end.

(** The diagnostic of a failed register read: it names a register whose
    query, or whose read, fails on the bus [b]. *)
Definition bus_failure_message (b : bus) (msg : string) : Prop :=
  exists address,
    (b address = QueryFails /\
     msg = "Unable to query for register " ++ Libc.fmt_hex address ++ Libc.nl) \/
    (b address = ReadFails /\
     msg = "Unable to read register " ++ Libc.fmt_hex address ++ Libc.nl).

(** The diagnostics of a run, each with the failure that justifies it. *)
Definition run_failure_message (e : env) (argv : list string) (msg : string) : Prop :=
  (exists argv0 argv1 rest,
      argv = argv0 :: argv1 :: rest /\ msg = usage argv0 /\
      (u16 (Libc.atoi argv1) < 1 \/ 360 < u16 (Libc.atoi argv1))) \/
  (open_result e < 0 /\ msg = "Unable to open a handle to the I2C bus" ++ Libc.nl) \/
  (ioctl_result e < 0 /\ msg = "Unable to communicate with AXP209" ++ Libc.nl) \/
  bus_failure_message (adc_bus e) msg \/
  (exists address,
      adc_write_ok e address = false /\
      msg = "Unable to write register " ++ Libc.fmt_hex address ++ Libc.nl) \/
  (exists i, bus_failure_message (cycle_bus e i) msg).

(** ** The rendering buffer *)

(** [check] holds of the [count] numbers from [start] on. *)
Fixpoint all_from (count : nat) (start : Z) (check : Z -> bool) : bool :=
  match count with
  | O => true
  | S k => check start && all_from k (start + 1) check
  end.

(** What [format_data_value] leaves in [buffer] for a valid sample of the
    dimension [index] held in [cell]. *)
Definition render_cell (index : Dimensions) (cell : value_t) : string :=
  match dim_DataType (dimension_definition index),
        dim_DataFormat (dimension_definition index) with
  | Float, Fmt_f p => Libc.fmt_f p (asFloat cell)
  | Uint8, Fmt_u => Libc.fmt_u (asUint8 cell)
  | Uint16, Fmt_u => Libc.fmt_u (asUint16 cell)
  | _, _ => EmptyString
  end.

(** The store has a cell for each dimension, and no dimension renders to
    more than [bound] characters. *)
Definition renderings_fit (bound : nat) (g : globals) : Prop :=
  List.length (gData g) = dim_index MaxDimensions /\
  forall index, index <> MaxDimensions ->
    (String.length (format_data_value index g) <= bound)%nat.

(** A store whose temperature sample is the largest finite [float]. *)
Definition wide_sample : globals :=
  mkGlobals 3 1 (0x7f7fffff :: repeat 0 12) 1.

(** ** Flushing *)

(** Whether stdout holds unflushed text after the events [t], if it did
    ([buffered]) before them; [None] when the process did anything but
    print or flush (a sleep, bus traffic, a diagnostic, a system call)
    while text was waiting in the buffer. *)
Fixpoint scan (buffered : bool) (t : list event) : option bool :=
  match t with
  | [] => Some buffered
  | Printf _ :: t' => scan true t'
  | Fflush :: t' => scan false t'
  | _ :: t' => if buffered then None else scan false t'
  end.

(** A computation that starts and ends with an empty buffer and never
    leaves text waiting. *)
Definition tidy {A : Type} (r : list event * outcome A) : Prop :=
  scan false (fst r) = Some false.

(** ** The analogue readings *)

(** The 12-bit value of a register pair: the high register and the low
    four bits of the low register. *)
Definition raw12 (high low : byte) : Z := 16 * byte_val high + byte_val low mod 16.

(** The readings that scale a register pair by a constant: the dimension,
    the addresses of the pair, and the constant in units of the last
    decimal printed (2.0f divides; 1.1f, 1.7f, .625f and .375f multiply). *)
Definition scaled_readings : list (Dimensions * (Z * Z) * Z) :=
  [ (batcharge, (0x7A, 0x7B), 5);
    (batvoltage, (0x78, 0x79), 11);
    (acinvoltage, (0x56, 0x57), 17);
    (acincurrent, (0x58, 0x59), 625);
    (vbusvoltage, (0x5A, 0x5B), 17);
    (vbuscurrent, (0x5C, 0x5D), 375) ].

(** The decimals a dimension is printed with. *)
Definition precision (index : Dimensions) : nat :=
  match dim_DataFormat (dimension_definition index) with
  | Fmt_f p => p
  | Fmt_u => 0
  end.

(** [raw * 0.18 - 228.46], as a decimal number rounded to the nearest
    tenth. *)
Definition temperature_text (raw : Z) : string :=
  let hundredths := 18 * raw - 22846 in
  Libc.sign_str (hundredths <? 0) ++ Libc.fixed_digits 1 ((Z.abs hundredths + 5) / 10).

(** ** The reset at the head of a cycle *)

(** The store as lines 243-244 leave it: every cell zero, no flag set. *)
Definition reset_samples (g : globals) : globals :=
  set_gIsValid 0 (set_gData (repeat 0 (dim_index MaxDimensions)) g).

(** Whether a bit of [mask] is set in the register at [address]. *)
Definition register_bit (b : bus) (address mask : Z) : bool :=
  match b address with
  | Byte x => negb (Z.land (byte_val x) mask =? 0)
  | _ => false
  end.

(** The dimensions that the registers of the bus [b] make a cycle save:
    the temperature always, the others as the charge-control register
    (0x33), the power status (0x01) and the bus-input register (0x30)
    say. *)
Definition measured (b : bus) (index : Dimensions) : bool :=
  match index with
  | internaltemp => true
  | chargelimit | chargeterm => register_bit b 0x33 0x80
  | batlevel | batcharge | batdischarge | batvoltage
  | vbusvoltage | vbuscurrent => register_bit b 0x01 0x20
  | acinvoltage | acincurrent => register_bit b 0x01 0x80
  | vbusvoltagelimit => register_bit b 0x30 0x40
  | vbuscurrentlimit =>
      match b 0x30 with
      | Byte x => Z.land (byte_val x) 0x3 <? 3
      | _ => false
      end
  | MaxDimensions => false
  end.

(** The cell of every dimension that is not valid is zero. *)
Definition unsaved_cells_zero (g : globals) : Prop :=
  forall index, is_valid index g = false -> nth (dim_index index) (gData g) 0 = 0.

(** A system without battery or AC input, charging disabled, no limit on
    the bus input: every register reads 0, but 0x30 reads 0x03. *)
Definition bare_bus : bus :=
  fun address => Byte (if address =? 0x30 then x03 else x00).

(** What a cycle on [bare_bus] leaves of [demo_samples]. *)
Definition bare_samples : globals :=
  match snd (gather_chart_data bare_bus demo_samples) with
  | Ret _ g' => g'
  | Exit _ => demo_samples
  end.

(** * Properties *)

(** ** Integers and bytes *)

Lemma byte_val_range (b : byte) : 0 <= byte_val b < 256.
Proof.
  unfold byte_val. pose proof (Byte.to_N_bounded b) as H.
  split; [apply N2Z.is_nonneg|].
  change 256 with (Z.of_N 256). apply N2Z.inj_lt. lia.
Qed.

Lemma u16_byte_val (b : byte) : u16 (byte_val b) = byte_val b.
Proof. unfold u16. apply Z.mod_small. pose proof (byte_val_range b). lia. Qed.

Lemma lor_below_pow2 (a b n : Z) :
  0 <= n -> 0 <= a < 2 ^ n -> 0 <= b < 2 ^ n -> 0 <= Z.lor a b < 2 ^ n.
Proof.
  intros Hn Ha Hb. split; [apply Z.lor_nonneg; lia|].
  destruct (Z.eq_dec (Z.lor a b) 0) as [E|E].
  - rewrite E. apply Z.pow_pos_nonneg; lia.
  - apply Z.log2_lt_pow2.
    + assert (0 <= Z.lor a b) by (apply Z.lor_nonneg; lia). lia.
    + rewrite Z.log2_lor by lia.
      destruct (Z.eq_dec a 0) as [->|Ha0]; destruct (Z.eq_dec b 0) as [->|Hb0];
        cbn [Z.log2]; try (rewrite Z.lor_0_l in E || rewrite Z.lor_0_r in E);
        try congruence.
      * rewrite Z.max_r by apply Z.log2_nonneg. apply Z.log2_lt_pow2; lia.
      * rewrite Z.max_l by apply Z.log2_nonneg. apply Z.log2_lt_pow2; lia.
      * apply Z.max_lub_lt; apply Z.log2_lt_pow2; lia.
Qed.

Lemma land_low_range (a n : Z) : 0 <= a -> 0 <= n -> 0 <= Z.land a (2 ^ n - 1) < 2 ^ n.
Proof.
  intros Ha Hn. replace (2 ^ n - 1) with (Z.ones n) by (rewrite Z.ones_equiv; lia).
  rewrite Z.land_ones by lia. apply Z.mod_pos_bound. apply Z.pow_pos_nonneg; lia.
Qed.

(** ** Rules of the weakest precondition *)

Section WpRules.
Context {A : Type} (T : event -> Prop).

Lemma wp_ret (a : A) (Q : A -> globals -> Prop) (g : globals) :
  Q a g -> wp (ret a) T Q g.
Proof. intros H. split; [constructor | exact H]. Qed.

Lemma wp_exit (Q : A -> globals -> Prop) (g : globals) :
  wp (exit 1) T Q g.
Proof. split; [constructor | reflexivity]. Qed.

Lemma wp_get (f : globals -> A) (Q : A -> globals -> Prop) (g : globals) :
  Q (f g) g -> wp (get f) T Q g.
Proof. intros H. split; [constructor | exact H]. Qed.

Lemma wp_bind {B : Type} (m : M B) (k : B -> M A)
    (Q : A -> globals -> Prop) (g : globals) :
  wp m T (fun b g' => wp (k b) T Q g') g -> wp (bind m k) T Q g.
Proof.
  unfold wp, bind. destruct (m g) as [t [b g'|status]]; cbn.
  - intros [Ht [Hk HQ]]. destruct (k b g') as [t' o]; cbn in *.
    split; [apply Forall_app; split; assumption | exact HQ].
  - intros [Ht Hs]. split; [exact Ht | exact Hs].
Qed.

Lemma wp_weaken (m : M A) (Q Q' : A -> globals -> Prop) (g : globals) :
  (forall a g', Q a g' -> Q' a g') -> wp m T Q g -> wp m T Q' g.
Proof.
  unfold wp. intros HQ [Ht H]. split; [exact Ht|].
  destruct (snd (m g)); auto.
Qed.
End WpRules.

Lemma wp_put (T : event -> Prop) (f : globals -> globals)
    (Q : unit -> globals -> Prop) (g : globals) :
  Q tt (f g) -> wp (put f) T Q g.
Proof. intros H. split; [constructor | exact H]. Qed.

Lemma wp_emit (T : event -> Prop) (ev : event)
    (Q : unit -> globals -> Prop) (g : globals) :
  T ev -> Q tt g -> wp (emit ev) T Q g.
Proof. intros HT H. split; [repeat constructor; exact HT | exact H]. Qed.

Section WpBus.
Variable T : event -> Prop.
Hypothesis T_bus : forall ev, bus_event ev -> T ev.

(** Reading a register emits bus events only and, when it returns,
    returns the byte the device replied. *)
Lemma wp_read_register_value (b : bus) (address : Z)
    (Q : Z -> globals -> Prop) (g : globals) :
  (forall x, b address = Byte x -> Q (byte_val x) g) ->
  wp (read_register_value b address) T Q g.
Proof.
  intros H. unfold read_register_value.
  apply wp_bind, wp_emit; [apply T_bus; exact I|].
  destruct (b address) as [x| |].
  - apply wp_bind, wp_emit; [apply T_bus; exact I|]. apply wp_ret. apply H. reflexivity.
  - apply wp_bind, wp_emit; [apply T_bus; exact I|]. apply wp_exit.
  - apply wp_bind, wp_emit; [apply T_bus; exact I|].
    apply wp_bind, wp_emit; [apply T_bus; exact I|]. apply wp_exit.
Qed.

Lemma wp_read_multi_value (b : bus) (highaddress lowaddress : Z)
    (Q : Z -> globals -> Prop) (g : globals) :
  (forall x y, b highaddress = Byte x -> b lowaddress = Byte y ->
     Q (u16 (Z.lor (Z.shiftl (u16 (byte_val x)) 4) (Z.land (u16 (byte_val y)) 0xF))) g) ->
  wp (read_multi_value b highaddress lowaddress) T Q g.
Proof.
  intros H. unfold read_multi_value.
  apply wp_bind, wp_read_register_value. intros x Hx.
  apply wp_bind, wp_read_register_value. intros y Hy.
  apply wp_ret. apply H; assumption.
Qed.
End WpBus.

Lemma wp_save_data_float (T : event -> Prop) (index : Dimensions) (value : spec_float)
    (Q : unit -> globals -> Prop) (g : globals) :
  Q tt (mark_valid index (store_cell index (fun cell => set_asFloat cell value) g)) ->
  wp (save_data_float index value) T Q g.
Proof. intros H. unfold save_data_float. apply wp_bind, wp_put, wp_put, H. Qed.

Lemma wp_save_data_uint8 (T : event -> Prop) (index : Dimensions) (value : Z)
    (Q : unit -> globals -> Prop) (g : globals) :
  Q tt (mark_valid index (store_cell index (fun cell => set_asUint8 cell value) g)) ->
  wp (save_data_uint8 index value) T Q g.
Proof. intros H. unfold save_data_uint8. apply wp_bind, wp_put, wp_put, H. Qed.

Lemma wp_save_data_uint16 (T : event -> Prop) (index : Dimensions) (value : Z)
    (Q : unit -> globals -> Prop) (g : globals) :
  Q tt (mark_valid index (store_cell index (fun cell => set_asUint16 cell value) g)) ->
  wp (save_data_uint16 index value) T Q g.
Proof. intros H. unfold save_data_uint16. apply wp_bind, wp_put, wp_put, H. Qed.

(** What a computation that returned satisfies. *)
Lemma wp_returned {A : Type} (m : M A) (T : event -> Prop)
    (Q : A -> globals -> Prop) (g : globals) (t : list event) (a : A) (g' : globals) :
  wp m T Q g -> m g = (t, Ret a g') -> Forall T t /\ Q a g'.
Proof. unfold wp. intros [Ht H] E. rewrite E in *. cbn in *. auto. Qed.

(** ** Running computations in sequence *)

Lemma bind_returns {A B : Type} (m : M A) (k : A -> M B)
    (g : globals) (t : list event) (a : A) (g1 : globals) :
  m g = (t, Ret a g1) -> bind m k g = ((t ++ fst (k a g1))%list, snd (k a g1)).
Proof. intros E. unfold bind. rewrite E. destruct (k a g1). reflexivity. Qed.

Lemma bind_exits {A B : Type} (m : M A) (k : A -> M B)
    (g : globals) (t : list event) (status : Z) :
  m g = (t, Exit status) -> bind m k g = (t, Exit status).
Proof. intros E. unfold bind. rewrite E. reflexivity. Qed.

(** ** The decoder *)

Ltac wp_step :=
  cbv beta zeta;
  lazymatch goal with
  | |- wp (bind _ _) _ _ _ => apply wp_bind
  | |- wp (put _) _ _ _ => apply wp_put
  | |- wp (ret _) _ _ _ => apply wp_ret
  | |- wp (read_register_value _ _) _ _ _ =>
      apply wp_read_register_value; [solve [auto] | intros ? ?]
  | |- wp (read_multi_value _ _ _) _ _ _ =>
      apply wp_read_multi_value; [solve [auto] | intros ? ? ? ?]
  | |- wp (save_data_float _ _) _ _ _ => apply wp_save_data_float
  | |- wp (save_data_uint8 _ _) _ _ _ => apply wp_save_data_uint8
  | |- wp (save_data_uint16 _ _) _ _ _ => apply wp_save_data_uint16
  | |- wp (if ?c then _ else _) _ _ _ => destruct c eqn:?
  end.

(** One cycle of the decoder: it emits bus events only, leaves [gI2c] and
    [gUpdateEvery] alone, and when it returns, the samples that depend on
    the charge-control register (0x33), the temperature registers (0x5E,
    0x5F) and the bus-input register (0x30) are as follows. *)
Lemma gather_chart_data_samples (b : bus) (g : globals) :
  wp (gather_chart_data b) bus_event
    (fun _ g' =>
       exists charge_ctl temp_high temp_low vbus_ipsout,
         b 0x33 = Byte charge_ctl /\
         b 0x5E = Byte temp_high /\ b 0x5F = Byte temp_low /\
         b 0x30 = Byte vbus_ipsout /\
         gI2c g' = gI2c g /\ gUpdateEvery g' = gUpdateEvery g /\
         sample internaltemp g' =
           Some (bits_of_b32
                   (b32_of_b64
                      (b64_sub
                         (b64_mul
                            (b64_of_Z
                               (u16 (Z.lor (Z.shiftl (u16 (byte_val temp_high)) 4)
                                           (Z.land (u16 (byte_val temp_low)) 0xF))))
                            (b64_lit 18 100))
                         (b64_lit 22846 100)))) /\
         sample chargelimit g' =
           (if c_true (Z.land (u8 (byte_val charge_ctl)) 0x80)
            then Some (u16 (u16 (Z.land (u8 (byte_val charge_ctl)) 0xf) * 100 + 300))
            else None) /\
         sample chargeterm g' =
           (if c_true (Z.land (u8 (byte_val charge_ctl)) 0x80)
            then Some
                   (if c_true (Z.land (u8 (byte_val charge_ctl)) 0x10)
                    then
                      u16 (u16 (Z.quot (u16 (u16 (Z.land (u8 (byte_val charge_ctl)) 0xf) * 100 + 300)) 10)
                           + Z.shiftr (u16 (Z.quot (u16 (u16 (Z.land (u8 (byte_val charge_ctl)) 0xf) * 100 + 300)) 10)) 1)
                    else
                      u16 (Z.quot (u16 (u16 (Z.land (u8 (byte_val charge_ctl)) 0xf) * 100 + 300)) 10))
            else None) /\
         sample vbusvoltagelimit g' =
           (if c_true (Z.land (u8 (byte_val vbus_ipsout)) 0x40)
            then Some (bits_of_b32
                         (b32_of_Z (u16 (Z.shiftr (u8 (byte_val vbus_ipsout)) 3 * 100 + 4000))))
            else None) /\
         sample vbuscurrentlimit g' =
           (if Z.land (u8 (byte_val vbus_ipsout)) 0x3 <? 3
            then Some (nth (Z.to_nat (Z.land (u8 (byte_val vbus_ipsout)) 0x3)) [900; 500; 100] 0)
            else None))
    g.
Proof.
  unfold gather_chart_data.
  repeat wp_step;
    match goal with
    | H33 : b 51 = Byte ?cc, H5E : b 94 = Byte ?th, H5F : b 95 = Byte ?tl,
      H30 : b 48 = Byte ?vi |- _ => exists cc, th, tl, vi
    end;
    repeat match goal with
           | H : _ = true |- _ => rewrite H
           | H : _ = false |- _ => rewrite H
           end;
    repeat (split; [first [assumption | reflexivity] |]);
    reflexivity.
Qed.

(** What a cycle that returned has established. *)
Lemma gather_chart_data_returned (b : bus) (g g' : globals) (t : list event) :
  gather_chart_data b g = (t, Ret tt g') ->
  exists charge_ctl temp_high temp_low vbus_ipsout,
    b 0x33 = Byte charge_ctl /\
    b 0x5E = Byte temp_high /\ b 0x5F = Byte temp_low /\
    b 0x30 = Byte vbus_ipsout /\
    gI2c g' = gI2c g /\ gUpdateEvery g' = gUpdateEvery g /\
    sample internaltemp g' =
      Some (bits_of_b32
              (b32_of_b64
                 (b64_sub
                    (b64_mul
                       (b64_of_Z
                          (u16 (Z.lor (Z.shiftl (u16 (byte_val temp_high)) 4)
                                      (Z.land (u16 (byte_val temp_low)) 0xF))))
                       (b64_lit 18 100))
                    (b64_lit 22846 100)))) /\
    sample chargelimit g' =
      (if c_true (Z.land (u8 (byte_val charge_ctl)) 0x80)
       then Some (u16 (u16 (Z.land (u8 (byte_val charge_ctl)) 0xf) * 100 + 300))
       else None) /\
    sample chargeterm g' =
      (if c_true (Z.land (u8 (byte_val charge_ctl)) 0x80)
       then Some
              (if c_true (Z.land (u8 (byte_val charge_ctl)) 0x10)
               then
                 u16 (u16 (Z.quot (u16 (u16 (Z.land (u8 (byte_val charge_ctl)) 0xf) * 100 + 300)) 10)
                      + Z.shiftr (u16 (Z.quot (u16 (u16 (Z.land (u8 (byte_val charge_ctl)) 0xf) * 100 + 300)) 10)) 1)
               else
                 u16 (Z.quot (u16 (u16 (Z.land (u8 (byte_val charge_ctl)) 0xf) * 100 + 300)) 10))
       else None) /\
    sample vbusvoltagelimit g' =
      (if c_true (Z.land (u8 (byte_val vbus_ipsout)) 0x40)
       then Some (bits_of_b32
                    (b32_of_Z (u16 (Z.shiftr (u8 (byte_val vbus_ipsout)) 3 * 100 + 4000))))
       else None) /\
    sample vbuscurrentlimit g' =
      (if Z.land (u8 (byte_val vbus_ipsout)) 0x3 <? 3
       then Some (nth (Z.to_nat (Z.land (u8 (byte_val vbus_ipsout)) 0x3)) [900; 500; 100] 0)
       else None).
Proof.
  intros E.
  exact (proj2 (wp_returned _ _ _ _ _ _ _ (gather_chart_data_samples b g) E)).
Qed.

(** The decoder writes nothing to stdout and does not sleep. *)
Lemma gather_chart_data_bus_events (b : bus) (g : globals) :
  Forall bus_event (fst (gather_chart_data b g)).
Proof. exact (proj1 (gather_chart_data_samples b g)). Qed.

(** *** The decoder returns when the bus answers *)

Lemma returns_ret {A : Type} (a : A) (g : globals) : returns (ret a) g.
Proof. exists [], a, g. reflexivity. Qed.

Lemma returns_put (f : globals -> globals) (g : globals) : returns (put f) g.
Proof. exists [], tt, (f g). reflexivity. Qed.

Lemma returns_bind {A B : Type} (m : M A) (k : A -> M B) (g : globals) :
  returns m g -> (forall a g', returns (k a) g') -> returns (bind m k) g.
Proof.
  intros (t & a & g1 & E) Hk. destruct (Hk a g1) as (t' & b & g2 & E').
  exists (t ++ t')%list, b, g2.
  rewrite (bind_returns _ _ _ _ _ _ E), E'. reflexivity.
Qed.

Lemma returns_read_register_value (b : bus) (address : Z) (g : globals) :
  responsive b -> returns (read_register_value b address) g.
Proof.
  intros Hb. destruct (Hb address) as [x Hx].
  exists [BusWrite [address]; BusRead], (byte_val x), g.
  unfold read_register_value, bind, emit, ret. rewrite Hx. reflexivity.
Qed.

Lemma returns_read_multi_value (b : bus) (highaddress lowaddress : Z) (g : globals) :
  responsive b -> returns (read_multi_value b highaddress lowaddress) g.
Proof.
  intros Hb. unfold read_multi_value.
  apply returns_bind; [apply returns_read_register_value, Hb | intros ? ?].
  apply returns_bind; [apply returns_read_register_value, Hb | intros ? ?].
  apply returns_ret.
Qed.

Lemma returns_save_data_float (index : Dimensions) (value : spec_float) (g : globals) :
  returns (save_data_float index value) g.
Proof. eexists _, _, _. reflexivity. Qed.

Lemma returns_save_data_uint8 (index : Dimensions) (value : Z) (g : globals) :
  returns (save_data_uint8 index value) g.
Proof. eexists _, _, _. reflexivity. Qed.

Lemma returns_save_data_uint16 (index : Dimensions) (value : Z) (g : globals) :
  returns (save_data_uint16 index value) g.
Proof. eexists _, _, _. reflexivity. Qed.

Ltac returns_step Hb :=
  cbv beta zeta;
  lazymatch goal with
  | |- returns (bind _ _) _ => apply returns_bind; [|intros ? ?]
  | |- returns (put _) _ => apply returns_put
  | |- returns (ret _) _ => apply returns_ret
  | |- returns (read_register_value _ _) _ => apply returns_read_register_value, Hb
  | |- returns (read_multi_value _ _ _) _ => apply returns_read_multi_value, Hb
  | |- returns (save_data_float _ _) _ => apply returns_save_data_float
  | |- returns (save_data_uint8 _ _) _ => apply returns_save_data_uint8
  | |- returns (save_data_uint16 _ _) _ => apply returns_save_data_uint16
  | |- returns (if ?c then _ else _) _ => destruct c
  end.

(** X1. On a bus that answers every query a cycle always returns: the
    decoder is total, it never ends the process by itself. *)
Lemma gather_chart_data_returns (b : bus) (g : globals) :
  responsive b -> returns (gather_chart_data b) g.
Proof.
  intros Hb. unfold gather_chart_data. repeat returns_step Hb.
Qed.

(** ** Rendering a sample *)

Lemma format_data_value_sample (index : Dimensions) (g : globals) :
  format_data_value index g =
    match sample index g with
    | None => EmptyString
    | Some cell =>
        match dim_DataType (dimension_definition index),
              dim_DataFormat (dimension_definition index) with
        | Float, Fmt_f p => Libc.fmt_f p (asFloat cell)
        | Uint8, Fmt_u => Libc.fmt_u (asUint8 cell)
        | Uint16, Fmt_u => Libc.fmt_u (asUint16 cell)
        | _, _ => EmptyString
        end
    end.
Proof.
  unfold format_data_value, sample, is_valid.
  destruct (Z.land (gIsValid g) (valid_bit index) =? 0); reflexivity.
Qed.

Lemma sample_is_valid (index : Dimensions) (g : globals) :
  is_valid index g = match sample index g with Some _ => true | None => false end.
Proof. unfold sample. destruct (is_valid index g); reflexivity. Qed.

Lemma append_nonempty_r (s1 s2 : string) : s2 <> EmptyString -> (s1 ++ s2)%string <> EmptyString.
Proof. destruct s1; cbn; [auto | discriminate]. Qed.

(** A [%.pf] conversion with a fractional part never yields the empty string. *)
Lemma fmt_f_nonempty (p : nat) (x : spec_float) : Libc.fmt_f (S p) x <> EmptyString.
Proof.
  assert (D : forall q, Libc.fixed_digits (S p) q <> EmptyString).
  { intros q. unfold Libc.fixed_digits. apply append_nonempty_r. discriminate. }
  destruct x as [s|s| |s m e]; cbn [Libc.fmt_f].
  - apply append_nonempty_r, D.
  - apply append_nonempty_r. discriminate.
  - discriminate.
  - apply append_nonempty_r, D.
Qed.

(** ** Properties of the decoder *)

(** C5. For every pair of raw bytes (high, low) the two-register read
    returns [(high << 4) | (low & 0xF)], having queried and read the two
    registers in that order; high byte 0x12 with low byte 0x3F reassembles
    to 303. *)
Theorem read_multi_value_reassembles
    (b : bus) (highaddress lowaddress : Z) (high low : byte) (g : globals) :
  b highaddress = Byte high ->
  b lowaddress = Byte low ->
  read_multi_value b highaddress lowaddress g =
    ([BusWrite [highaddress]; BusRead; BusWrite [lowaddress]; BusRead],
     Ret (Z.lor (Z.shiftl (byte_val high) 4) (Z.land (byte_val low) 0xF)) g)
  /\ (high = x12 -> low = x3f ->
      snd (read_multi_value b highaddress lowaddress g) = Ret 303 g).
Proof.
  intros Hh Hl.
  assert (E : read_multi_value b highaddress lowaddress g =
    ([BusWrite [highaddress]; BusRead; BusWrite [lowaddress]; BusRead],
     Ret (Z.lor (Z.shiftl (byte_val high) 4) (Z.land (byte_val low) 0xF)) g)).
  { unfold read_multi_value, read_register_value, bind, emit, ret.
    rewrite Hh, Hl. cbv beta iota. rewrite !u16_byte_val. cbn [app].
    f_equal. f_equal. unfold u16. apply Z.mod_small.
    pose proof (byte_val_range high) as Rh. pose proof (byte_val_range low) as Rl.
    apply (lor_below_pow2 _ _ 16); [lia | |].
    - rewrite Z.shiftl_mul_pow2 by lia. change (2 ^ 4) with 16. change (2 ^ 16) with 65536. lia.
    - pose proof (land_low_range (byte_val low) 4). change (2 ^ 4 - 1) with 15 in *.
      change (2 ^ 4) with 16 in *. change (2 ^ 16) with 65536. lia. }
  split; [exact E|].
  intros -> ->. rewrite E. reflexivity.
Qed.

Lemma demo_cycle :
  gather_chart_data demo_bus initial_globals =
    (fst (gather_chart_data demo_bus initial_globals), Ret tt demo_samples).
Proof. vm_compute. reflexivity. Qed.

Lemma read_multi_value_reassembles_witness :
  read_multi_value demo_bus 0x5E 0x5F initial_globals =
    ([BusWrite [0x5E]; BusRead; BusWrite [0x5F]; BusRead], Ret 303 initial_globals).
Proof.
  exact (proj1 (read_multi_value_reassembles demo_bus 0x5E 0x5F x12 x3f initial_globals
                  eq_refl eq_refl)).
Defined.

(** C6. For every charge-control register byte with bit 0x80 set, when the
    cycle returns the charge limit is (low 4-bit field) * 100 + 300 and the
    termination limit is a tenth of it, plus half of that tenth exactly when
    bit 0x10 is set; both are valid, held as 16-bit unsigned values and
    rendered in decimal.  Byte 0x9F (0x8F with bit 0x10) gives 1800 and 270,
    byte 0x8F gives 1800 and 180. *)
Theorem charge_limits_decoded
    (b : bus) (g g' : globals) (t : list event) (charge_ctl : byte) :
  gather_chart_data b g = (t, Ret tt g') ->
  b 0x33 = Byte charge_ctl ->
  Z.land (byte_val charge_ctl) 0x80 <> 0 ->
  let limit := Z.land (byte_val charge_ctl) 0xF * 100 + 300 in
  let termination :=
    if Z.land (byte_val charge_ctl) 0x10 =? 0 then limit / 10
    else limit / 10 + limit / 10 / 2 in
  option_map asUint16 (sample chargelimit g') = Some limit /\
  option_map asUint16 (sample chargeterm g') = Some termination /\
  format_data_value chargelimit g' = Libc.fmt_u limit /\
  format_data_value chargeterm g' = Libc.fmt_u termination /\
  (charge_ctl = x9f -> limit = 1800 /\ termination = 270) /\
  (charge_ctl = x8f -> limit = 1800 /\ termination = 180).
Proof.
  intros E Hb Hbit.
  destruct (gather_chart_data_returned _ _ _ _ E)
    as (cc & th & tl & vi & H33 & _ & _ & _ & _ & _ & _ & Hcl & Hct & _ & _).
  rewrite Hb in H33. injection H33 as <-.
  rewrite !format_data_value_sample, Hcl, Hct. clear - Hbit.
  destruct charge_ctl;
    first [ exfalso; apply Hbit; reflexivity
          | vm_compute; repeat split; intros; first [reflexivity | discriminate] ].
Qed.

Lemma charge_limits_decoded_witness :
  format_data_value chargelimit demo_samples = "1800"%string /\
  format_data_value chargeterm demo_samples = "270"%string.
Proof.
  assert (Hbit : Z.land (byte_val x9f) 0x80 <> 0) by (vm_compute; discriminate).
  destruct (charge_limits_decoded demo_bus initial_globals demo_samples _ x9f
              demo_cycle eq_refl Hbit) as (_ & _ & Hl & Ht & _).
  split; [exact Hl | exact Ht].
Defined.

(** C7. For every bus-input status register byte, when the cycle returns
    the bus current limit is valid exactly when the low 2-bit field is 0, 1
    or 2, with the values 900, 500 and 100; field value 3 leaves the sample
    invalid, and it renders as the empty string. *)
Theorem bus_current_limit_decoded
    (b : bus) (g g' : globals) (t : list event) (vbus_ipsout : byte) :
  gather_chart_data b g = (t, Ret tt g') ->
  b 0x30 = Byte vbus_ipsout ->
  let field := Z.land (byte_val vbus_ipsout) 0x3 in
  (is_valid vbuscurrentlimit g' = true <-> field = 0 \/ field = 1 \/ field = 2) /\
  (field = 0 -> option_map asUint16 (sample vbuscurrentlimit g') = Some 900 /\
                format_data_value vbuscurrentlimit g' = "900"%string) /\
  (field = 1 -> option_map asUint16 (sample vbuscurrentlimit g') = Some 500 /\
                format_data_value vbuscurrentlimit g' = "500"%string) /\
  (field = 2 -> option_map asUint16 (sample vbuscurrentlimit g') = Some 100 /\
                format_data_value vbuscurrentlimit g' = "100"%string) /\
  (field = 3 -> sample vbuscurrentlimit g' = None /\
                format_data_value vbuscurrentlimit g' = EmptyString).
Proof.
  intros E Hb.
  destruct (gather_chart_data_returned _ _ _ _ E)
    as (cc & th & tl & vi & _ & _ & _ & H30 & _ & _ & _ & _ & _ & _ & Hcl).
  rewrite Hb in H30. injection H30 as <-.
  rewrite !format_data_value_sample, sample_is_valid, Hcl. clear.
  destruct vbus_ipsout; vm_compute;
    repeat split; intros;
    first [ reflexivity | discriminate
          | left; reflexivity | right; left; reflexivity | right; right; reflexivity
          | match goal with H : _ \/ _ |- _ => destruct H as [H|[H|H]]; discriminate H end ].
Qed.

Lemma bus_current_limit_decoded_witness :
  format_data_value vbuscurrentlimit demo_samples = "900"%string.
Proof.
  destruct (bus_current_limit_decoded demo_bus initial_globals demo_samples _ x60
              demo_cycle eq_refl) as (_ & H0 & _).
  exact (proj2 (H0 eq_refl)).
Defined.

(** C1 (what the code does).  For every cycle that returns with bit 0x40 of
    register 0x30 set, the bus voltage limit is marked valid, but its cell
    holds the bits of the [float] (5-bit field) * 100 + 4000, as written by
    [save_data_float], whereas the dimension is declared [Uint16]: the
    rendered text is the decimal of the two low bytes of that float, never
    the decimal of the limit itself. *)
Theorem vbus_voltage_limit_saved_as_float
    (b : bus) (g g' : globals) (t : list event) (vbus_ipsout : byte) :
  gather_chart_data b g = (t, Ret tt g') ->
  b 0x30 = Byte vbus_ipsout ->
  Z.land (byte_val vbus_ipsout) 0x40 <> 0 ->
  let limit := Z.shiftr (byte_val vbus_ipsout) 3 * 100 + 4000 in
  is_valid vbusvoltagelimit g' = true /\
  dim_DataType (dimension_definition vbusvoltagelimit) = Uint16 /\
  sample vbusvoltagelimit g' = Some (bits_of_b32 (b32_of_Z limit)) /\
  format_data_value vbusvoltagelimit g' =
    Libc.fmt_u (bits_of_b32 (b32_of_Z limit) mod 2 ^ 16) /\
  format_data_value vbusvoltagelimit g' <> Libc.fmt_u limit.
Proof.
  intros E Hb Hbit.
  destruct (gather_chart_data_returned _ _ _ _ E)
    as (cc & th & tl & vi & _ & _ & _ & H30 & _ & _ & _ & _ & _ & Hvl & _).
  rewrite Hb in H30. injection H30 as <-.
  rewrite !format_data_value_sample, sample_is_valid, Hvl. clear - Hbit.
  destruct vbus_ipsout;
    first [ exfalso; apply Hbit; reflexivity
          | vm_compute; repeat split; discriminate ].
Qed.

Lemma vbus_voltage_limit_saved_as_float_witness :
  Z.shiftr (byte_val x60) 3 * 100 + 4000 = 5200 /\
  format_data_value vbusvoltagelimit demo_samples = "32768"%string.
Proof.
  assert (Hbit : Z.land (byte_val x60) 0x40 <> 0) by (vm_compute; discriminate).
  destruct (vbus_voltage_limit_saved_as_float demo_bus initial_globals demo_samples _ x60
              demo_cycle eq_refl Hbit) as (_ & _ & _ & H & _).
  split; [reflexivity | exact H].
Defined.

Lemma bind_put {A : Type} (f : globals -> globals) (k : unit -> M A) (g : globals) :
  bind (put f) k g = k tt (f g).
Proof. unfold bind, put. destruct (k tt (f g)). reflexivity. Qed.

(** ** The emitter *)

(** The two loops of [print_charts_preamble] walk the catalog in order. *)
Lemma print_charts_preamble_run (g : globals) :
  print_charts_preamble g = (preamble_events, Ret tt g).
Proof. reflexivity. Qed.

(** So do the loops of [print_chart_data]. *)
Lemma print_chart_data_run (delayus : Z) (g : globals) :
  print_chart_data delayus g = (frame_events delayus g, Ret tt g).
Proof.
  unfold print_chart_data, frame_events, chart_frame_events, begin_suffix, c_true.
  destruct (delayus =? 0); reflexivity.
Qed.

Lemma output_app (t1 t2 : list event) : output (t1 ++ t2) = (output t1 ++ output t2)%list.
Proof. apply filter_app. Qed.

Lemma sleeps_app (t1 t2 : list event) : sleeps (t1 ++ t2) = (sleeps t1 ++ sleeps t2)%list.
Proof.
  induction t1 as [|ev t1 IH]; [reflexivity|].
  destruct ev; cbn; rewrite IH; reflexivity.
Qed.

Lemma output_frame_events (delayus : Z) (g : globals) :
  output (frame_events delayus g) = frame_events delayus g.
Proof. reflexivity. Qed.

Lemma sleeps_frame_events (delayus : Z) (g : globals) :
  sleeps (frame_events delayus g) = [].
Proof. reflexivity. Qed.

Lemma frame_events_no_preamble (delayus : Z) (g : globals) :
  filter is_preamble_event (frame_events delayus g) = [].
Proof. unfold frame_events, chart_frame_events, begin_suffix. destruct (delayus =? 0); reflexivity. Qed.

Lemma bus_events_silent (t : list event) :
  Forall bus_event t -> output t = [] /\ sleeps t = [].
Proof.
  induction 1 as [|ev t Hev _ [IHo IHs]]; [split; reflexivity|].
  destruct ev; cbn in Hev; try contradiction; cbn; auto.
Qed.

(** ** The main loop *)

Lemma get_run {A : Type} (f : globals -> A) (g : globals) :
  get f g = ([], Ret (f g) g).
Proof. reflexivity. Qed.

Lemma emit_run (ev : event) (g : globals) : emit ev g = ([ev], Ret tt g).
Proof. reflexivity. Qed.

Lemma put_run (f : globals -> globals) (g : globals) : put f g = ([], Ret tt (f g)).
Proof. reflexivity. Qed.

(** The trace of the loop, whatever the bus does: the iterations whose
    decoding returned each print one frame and sleep once; the first
    iteration whose decoding fails ends the process without printing. *)
Lemma main_loop_trace (e : env) (n : nat) :
  forall (i : nat) (g : globals),
  exists states : list globals,
    (List.length states <= n)%nat /\
    Forall2 (fun j gj => decoded_from (cycle_bus e j) gj)
            (seq i (List.length states)) states /\
    output (fst (main_loop e n i (previous_end_us e i) g)) = frames_from e i states /\
    sleeps (fst (main_loop e n i (previous_end_us e i) g)) =
      map (sleep_us (gUpdateEvery g) e) (seq i (List.length states)) /\
    (forall g', snd (main_loop e n i (previous_end_us e i) g) = Ret tt g' ->
                List.length states = n).
Proof.
  induction n as [|n IH]; intros i g.
  - exists []. cbn. repeat split; auto.
  - cbn [main_loop].
    pose proof (gather_chart_data_bus_events (cycle_bus e i) g) as Hbus.
    apply bus_events_silent in Hbus. destruct Hbus as [Ho Hs].
    destruct (gather_chart_data (cycle_bus e i) g) as [t1 [[] g1|status]] eqn:E1.
    + rewrite (bind_returns _ _ _ _ _ _ E1).
      rewrite (bind_returns _ _ _ _ _ _ (print_chart_data_run _ g1)).
      rewrite (bind_returns _ _ _ _ _ _ (get_run _ g1)).
      rewrite (bind_returns _ _ _ _ _ _ (emit_run _ g1)).
      destruct (gather_chart_data_returned _ _ _ _ E1)
        as (_ & _ & _ & _ & _ & _ & _ & _ & _ & Hevery & _).
      destruct (IH (S i) g1) as (states & Hlen & Hdec & Hout & Hsl & Hret).
      change (timespec_us (clock e (2 * i + 1))) with (previous_end_us e (S i)).
      cbn [fst snd] in *.
      exists (g1 :: states). cbn [List.length seq].
      split; [lia|]. split; [|split; [|split]].
      * constructor; [exists t1, g; exact E1 | exact Hdec].
      * rewrite !output_app, Ho, Hout, output_frame_events.
        unfold frames_from. cbn [List.length seq combine flat_map fst snd app output filter is_output].
        reflexivity.
      * rewrite !sleeps_app, Hs, Hsl, sleeps_frame_events, Hevery.
        cbn [map app sleeps]. reflexivity.
      * intros g' Hg'. f_equal. apply (Hret g'). exact Hg'.
    + rewrite (bind_exits _ _ _ _ _ E1). cbn [fst snd] in *.
      exists []. cbn [List.length seq map].
      split; [lia|]. split; [constructor|]. split; [exact Ho|]. split; [exact Hs|].
      discriminate.
Qed.

(** ** Start-up *)

Lemma silent_events_output (t : list event) : Forall silent_event t -> output t = [].
Proof.
  induction 1 as [|ev t Hev _ IH]; [reflexivity|].
  unfold output in *. cbn [filter]. rewrite Hev. exact IH.
Qed.

Lemma parse_arguments_run (argv : list string) (g : globals) :
  parse_arguments argv g =
    match argv with
    | argv0 :: argv1 :: _ =>
        if (u16 (Libc.atoi argv1) <? 1) || (360 <? u16 (Libc.atoi argv1))
        then ([Eprintf (usage argv0)], Exit 1)
        else ([], Ret tt (set_gUpdateEvery (u16 (Libc.atoi argv1)) g))
    | _ => ([], Ret tt (set_gUpdateEvery 1 g))
    end.
Proof.
  destruct argv as [|argv0 [|argv1 rest]]; try reflexivity.
  unfold parse_arguments. rewrite bind_put.
  rewrite (bind_returns _ _ _ _ _ _ (get_run _ _)).
  cbn [gUpdateEvery set_gUpdateEvery app].
  destruct ((u16 (Libc.atoi argv1) <? 1) || (360 <? u16 (Libc.atoi argv1))); reflexivity.
Qed.

(** The enable sequence writes nothing to stdout, leaves the globals
    alone, and if it ends the process, it does so with status 1. *)
Lemma enable_adc_silent (e : env) (g : globals) :
  wp (enable_adc e) silent_event (fun _ g' => g' = g) g.
Proof.
  assert (Hbus : forall ev, bus_event ev -> silent_event ev).
  { intros [] H; cbn in H; try contradiction; reflexivity. }
  assert (Hw : forall address value (Q : unit -> globals -> Prop) g0,
             Q tt g0 -> wp (write_register_value e address value) silent_event Q g0).
  { intros address value Q g0 HQ. unfold write_register_value.
    apply wp_bind, wp_emit; [reflexivity|].
    destruct (adc_write_ok e address).
    - apply wp_ret, HQ.
    - apply wp_bind, wp_emit; [reflexivity|]. apply wp_exit. }
  unfold enable_adc.
  apply wp_bind, wp_emit; [reflexivity|]. cbv zeta.
  destruct (ioctl_result e <? 0); [apply wp_ret; reflexivity|].
  apply wp_bind, wp_read_register_value; [exact Hbus|]. intros v1 _. cbv zeta.
  apply wp_bind.
  apply (wp_weaken _ _ (fun _ g' => g' = g)).
  - intros wait g' ->.
    apply wp_bind, wp_read_register_value; [exact Hbus|]. intros v2 _. cbv zeta.
    apply wp_bind.
    apply (wp_weaken _ _ (fun _ g' => g' = g)).
    + intros wait' g' ->. apply wp_bind.
      destruct wait'.
      * apply wp_emit; [reflexivity|]. apply wp_ret. reflexivity.
      * apply wp_ret. apply wp_ret. reflexivity.
    + destruct (negb _).
      * apply wp_bind, Hw. apply wp_ret. reflexivity.
      * apply wp_ret. reflexivity.
  - destruct (negb _).
    + apply wp_bind, Hw. apply wp_ret. reflexivity.
    + apply wp_ret. reflexivity.
Qed.

(** Start-up either ends the process with status 1, having written nothing
    to stdout, or returns having printed the preamble, and nothing else, to
    stdout, with the interval the arguments asked for in [gUpdateEvery]. *)
Lemma startup_run (e : env) (argv : list string) (g : globals) :
  (exists t, startup e argv g = (t, Exit 1) /\ output t = []) \/
  (exists t every,
      parse_arguments argv g = ([], Ret tt (set_gUpdateEvery every g)) /\
      startup e argv g =
        ((t ++ preamble_events)%list,
         Ret tt (set_gI2c (open_result e) (set_gUpdateEvery every g))) /\
      output t = []).
Proof.
  unfold startup.
  assert (Hparse : (exists argv0, parse_arguments argv g = ([Eprintf (usage argv0)], Exit 1)) \/
                   (exists every, parse_arguments argv g = ([], Ret tt (set_gUpdateEvery every g)))).
  { rewrite parse_arguments_run. destruct argv as [|argv0 [|argv1 rest]]; eauto.
    destruct ((u16 (Libc.atoi argv1) <? 1) || (360 <? u16 (Libc.atoi argv1))); eauto. }
  destruct Hparse as [[argv0 E]|[every E]].
  { left. eexists. rewrite (bind_exits _ _ _ _ _ E). split; reflexivity. }
  rewrite (bind_returns _ _ _ _ _ _ E).
  rewrite (bind_returns _ _ _ _ _ _ (emit_run _ _)).
  rewrite (bind_returns _ _ _ _ _ _ (put_run _ _)).
  rewrite (bind_returns _ _ _ _ _ _ (get_run _ _)).
  set (g2 := set_gI2c (open_result e) (set_gUpdateEvery every g)).
  destruct (gI2c g2 <? 0).
  { left. eexists. split; reflexivity. }
  pose proof (enable_adc_silent e g2) as [Hsilent Hpost].
  apply silent_events_output in Hsilent.
  destruct (enable_adc e g2) as [tadc [err g3|status]] eqn:Eadc; cbn [fst snd] in *.
  - subst g3. rewrite (bind_returns _ _ _ _ _ _ Eadc).
    destruct (err <? 0).
    + left. eexists. cbn [fst snd app]. split; [reflexivity|].
      cbn [app]. change (output (SysOpen ("/dev/" ++ I2C_DEVICE) :: (tadc ++ _)%list)) with
        (output (tadc ++ [Eprintf ("Unable to communicate with AXP209" ++ Libc.nl)])).
      rewrite output_app, Hsilent. reflexivity.
    + right. exists (SysOpen ("/dev/" ++ I2C_DEVICE) :: tadc), every.
      split; [exact E|]. rewrite print_charts_preamble_run. cbn [fst snd app].
      split; [reflexivity | exact Hsilent].
  - subst status. left. eexists. rewrite (bind_exits _ _ _ _ _ Eadc).
    cbn [fst snd app]. split; [reflexivity | exact Hsilent].
Qed.

(** ** Whole runs *)

Lemma frames_from_no_preamble (e : env) (states : list globals) :
  forall from, filter is_preamble_event (frames_from e from states) = [].
Proof.
  unfold frames_from.
  induction states as [|g states IH]; intros from; [reflexivity|].
  cbn [List.length seq combine flat_map fst snd].
  rewrite filter_app, frame_events_no_preamble. apply IH.
Qed.

(** Every run: either start-up ends the process with status 1 and stdout
    stays empty, or stdout holds the preamble followed by one frame for
    each iteration whose decoding returned. *)
Lemma run_trace (e : env) (argv : list string) (n : nat) :
  (exists t, run e argv n = (t, Exit 1) /\ output t = []) \/
  (exists every states,
      parse_arguments argv initial_globals =
        ([], Ret tt (set_gUpdateEvery every initial_globals)) /\
      (List.length states <= n)%nat /\
      Forall2 (fun j gj => decoded_from (cycle_bus e j) gj)
              (seq 0 (List.length states)) states /\
      output (fst (run e argv n)) = (preamble_events ++ frames_from e 0 states)%list /\
      (forall g', snd (run e argv n) = Ret tt g' -> List.length states = n)).
Proof.
  unfold run, main.
  destruct (startup_run e argv initial_globals) as [(t & E & Ho)|(t & every & Ep & E & Ho)].
  - left. exists t. rewrite (bind_exits _ _ _ _ _ E). split; [reflexivity | exact Ho].
  - right. rewrite (bind_returns _ _ _ _ _ _ E). cbn [fst snd].
    set (g1 := set_gI2c (open_result e) (set_gUpdateEvery every initial_globals)).
    destruct (main_loop_trace e n 0 g1) as (states & Hlen & Hdec & Hout & _ & Hret).
    change (previous_end_us e 0) with 0 in *.
    exists every, states. repeat split; try assumption.
    rewrite !output_app, Ho, Hout. reflexivity.
Qed.

Lemma demo_run (n : nat) :
  (1 <= n <= 3)%nat -> snd (run demo_env ["chip.plugin"] n) = Ret tt demo_final.
Proof.
  intros H.
  destruct n as [|[|[|[|n]]]];
    [exfalso; lia | vm_compute; reflexivity .. | exfalso; lia].
Qed.

Lemma demo_startup :
  startup demo_env ["chip.plugin"] initial_globals =
    (fst (startup demo_env ["chip.plugin"] initial_globals),
     Ret tt (mkGlobals 3 1 (gData initial_globals) 0)).
Proof. vm_compute. reflexivity. Qed.

(** C9, as the code has it.  An execution whose start-up ends the process
    (a rejected argument, a bus that does not open, a failed enable
    sequence) ends with status 1 there and has written nothing to stdout.
    An execution whose start-up completes has printed the preamble, and
    nothing else, to stdout by then, and stdout holds the preamble exactly
    once, before any frame: the CHART and DIMENSION lines of stdout are
    those of the one preamble at its head, and what follows are the frames
    of the iterations that got to print, none of which contains such a
    line.  [print_charts_preamble] and [print_chart_data] walk the charts
    in the order of [gChartDefinitions] and, within a chart, its members in
    the order of its declaration. *)
Theorem preamble_once_then_frames (e : env) (argv : list string) (n : nat) :
  ((forall t status,
       startup e argv initial_globals = (t, Exit status) ->
       run e argv n = (t, Exit 1) /\ output t = []) /\
   (forall t g,
       startup e argv initial_globals = (t, Ret tt g) ->
       output t = preamble_events /\
       exists states,
         (List.length states <= n)%nat /\
         (forall g', snd (run e argv n) = Ret tt g' -> List.length states = n) /\
         output (fst (run e argv n)) = (preamble_events ++ frames_from e 0 states)%list /\
         filter is_preamble_event (output (fst (run e argv n))) = removelast preamble_events /\
         filter is_preamble_event (frames_from e 0 states) = [])) /\
  (forall g,
      print_charts_preamble g =
        ((flat_map (fun c => Printf (chart_line c)
                             :: map (fun d => Printf (dimension_line d)) (chart_members c))
                   gChartDefinitions ++ [Fflush])%list,
         Ret tt g)) /\
  (forall delayus g,
      print_chart_data delayus g =
        ((flat_map (fun c =>
                      [Printf ("BEGIN " ++ chart_Name c); Printf (begin_suffix delayus)]
                      ++ map (fun d => Printf (set_line g d)) (chart_members c)
                      ++ [Printf ("END" ++ Libc.nl)])
                   gChartDefinitions ++ [Fflush])%list,
         Ret tt g)).
Proof.
  split; [split|split].
  - intros t status E.
    destruct (startup_run e argv initial_globals) as [(t0 & E0 & Ho)|(t0 & every & _ & E0 & _)];
      rewrite E0 in E; [|discriminate E].
    injection E as <- _. split; [|exact Ho].
    unfold run, main. apply (bind_exits _ _ _ _ _ E0).
  - intros t g E.
    destruct (startup_run e argv initial_globals) as [(t0 & E0 & _)|(t0 & every & _ & E0 & Ho)];
      rewrite E0 in E; [discriminate E|].
    injection E as <- _.
    assert (Hpre : output (t0 ++ preamble_events) = preamble_events).
    { rewrite output_app, Ho. reflexivity. }
    split; [exact Hpre|].
    unfold run, main. rewrite (bind_returns _ _ _ _ _ _ E0). cbn [fst snd].
    set (g1 := set_gI2c (open_result e) (set_gUpdateEvery every initial_globals)).
    destruct (main_loop_trace e n 0 g1) as (states & Hlen & _ & Hout & _ & Hret).
    change (previous_end_us e 0) with 0 in *.
    assert (Hall : output ((t0 ++ preamble_events) ++ fst (main_loop e n 0 0 g1)) =
                   (preamble_events ++ frames_from e 0 states)%list).
    { rewrite (output_app (t0 ++ preamble_events)), Hpre, Hout. reflexivity. }
    exists states. split; [exact Hlen|]. split; [exact Hret|]. split; [exact Hall|].
    split; [|apply frames_from_no_preamble].
    rewrite Hall, filter_app, frames_from_no_preamble, app_nil_r. reflexivity.
  - intros g. apply print_charts_preamble_run.
  - intros delayus g. apply print_chart_data_run.
Qed.

Lemma preamble_once_then_frames_witness :
  (run demo_env ["chip.plugin"; "0"] 2 = ([Eprintf (usage "chip.plugin")], Exit 1) /\
   output [Eprintf (usage "chip.plugin")] = []) /\
  exists states,
    List.length states = 2%nat /\
    output (fst (run demo_env ["chip.plugin"] 2)) =
      (preamble_events ++ frames_from demo_env 0 states)%list.
Proof.
  split.
  - apply (proj1 (proj1 (preamble_once_then_frames demo_env ["chip.plugin"; "0"] 2)) _ 1).
    reflexivity.
  - destruct (proj2 (proj1 (preamble_once_then_frames demo_env ["chip.plugin"] 2))
                _ _ demo_startup)
      as (_ & states & _ & Hret & Hout & _).
    exists states. split; [exact (Hret _ (demo_run 2 ltac:(lia))) | exact Hout].
Defined.

(** C9, as stated, fails for the executions that end during start-up: they
    never emit the preamble.  With the argument 0 the process prints the
    usage message to stderr and ends with status 1; stdout stays empty. *)
Lemma preamble_counterexample :
  run demo_env ["chip.plugin"; "0"] 3 = ([Eprintf (usage "chip.plugin")], Exit 1) /\
  output (fst (run demo_env ["chip.plugin"; "0"] 3)) = [] /\
  filter is_preamble_event (fst (run demo_env ["chip.plugin"; "0"] 3)) = [].
Proof. vm_compute. repeat split; reflexivity. Qed.

(** ** The elapsed-time hint *)

Lemma begin_hints_preamble (t : list event) :
  begin_hints (preamble_events ++ t) = begin_hints t.
Proof. reflexivity. Qed.

Lemma begin_hints_frame (delayus : Z) (g : globals) (t : list event) :
  begin_hints (frame_events delayus g ++ t) =
    (repeat (begin_suffix delayus) NUM_CHARTS ++ begin_hints t)%list.
Proof.
  unfold frame_events, chart_frame_events, begin_suffix.
  destruct (delayus =? 0); reflexivity.
Qed.

Lemma begin_hints_frames (e : env) (states : list globals) :
  forall from,
    begin_hints (frames_from e from states) =
      flat_map (fun i => repeat (begin_suffix (elapsed_us e i)) NUM_CHARTS)
               (seq from (List.length states)).
Proof.
  unfold frames_from.
  induction states as [|g states IH]; intros from; [reflexivity|].
  cbn [List.length seq combine flat_map fst snd].
  rewrite begin_hints_frame, IH. reflexivity.
Qed.

Lemma timespec_us_range (t : timespec) : 0 <= timespec_us t < 2 ^ 64.
Proof. unfold timespec_us, u64. apply Z.mod_pos_bound. lia. Qed.

(** C3, as the code has it.  In every run whose first [n] iterations have
    completed, the BEGIN lines of the first frame carry no elapsed-time
    hint, and the BEGIN lines of every later frame carry the time from the
    end of the previous cycle to the start of this one (in microseconds,
    modulo 2^64); when that time is 0, or the previous end time stamp is 0,
    they carry no hint either. *)
Theorem elapsed_hint_since_previous_end
    (e : env) (argv : list string) (n : nat) (g : globals) :
  snd (run e argv n) = Ret tt g ->
  begin_hints (output (fst (run e argv n))) =
    flat_map (fun i => repeat (begin_suffix (elapsed_us e i)) NUM_CHARTS) (seq 0 n)
  /\ begin_suffix (elapsed_us e 0) = Libc.nl
  /\ (forall i,
        cycle_end_us e i <> 0 ->
        cycle_start_us e (S i) <> cycle_end_us e i ->
        begin_suffix (elapsed_us e (S i)) =
          (" " ++ Libc.fmt_u (u64 (cycle_start_us e (S i) - cycle_end_us e i)) ++ Libc.nl)%string)
  /\ (forall i,
        cycle_end_us e i = 0 \/ cycle_start_us e (S i) = cycle_end_us e i ->
        begin_suffix (elapsed_us e (S i)) = Libc.nl).
Proof.
  intros Hrun. split; [|split; [|split]].
  - destruct (run_trace e argv n) as [(t & E & _)|(every & states & _ & _ & _ & Hout & Hret)].
    + rewrite E in Hrun. discriminate Hrun.
    + rewrite Hout, begin_hints_preamble, begin_hints_frames, (Hret _ Hrun). reflexivity.
  - reflexivity.
  - intros i Hend Hne. unfold elapsed_us. cbn [previous_end_us].
    destruct (Z.eqb_spec (cycle_end_us e i) 0) as [E0|_]; [contradiction|]. cbn [negb].
    unfold begin_suffix.
    destruct (Z.eqb_spec (u64 (cycle_start_us e (S i) - cycle_end_us e i)) 0) as [E|_];
      [|reflexivity].
    exfalso. apply Hne.
    pose proof (timespec_us_range (clock e (2 * S i))) as R1.
    pose proof (timespec_us_range (clock e (2 * i + 1))) as R2.
    unfold cycle_start_us, cycle_end_us, u64 in *.
    apply Z.mod_divide in E; [|lia]. destruct E as [k Hk]. nia.
  - intros i H. unfold elapsed_us. cbn [previous_end_us].
    destruct H as [H|H].
    + rewrite H. reflexivity.
    + rewrite H, Z.sub_diag. destruct (negb (cycle_end_us e i =? 0)); reflexivity.
Qed.

Lemma elapsed_hint_since_previous_end_witness :
  begin_hints (output (fst (run demo_env ["chip.plugin"] 3))) =
    (repeat Libc.nl 8 ++ repeat (" 800000" ++ Libc.nl)%string 8
     ++ repeat (" 700000" ++ Libc.nl)%string 8)%list.
Proof.
  exact (proj1 (elapsed_hint_since_previous_end demo_env ["chip.plugin"] 3 demo_final
                  (demo_run 3 ltac:(lia)))).
Defined.

(** C3, as stated, fails.  In the run of [demo_env] the cycles end at
    10.2 s, 11.3 s and 12.5 s, so successive cycle ends are 1100000 and
    1200000 microseconds apart; the hints printed on the BEGIN lines of the
    second and third frame are 800000 and 700000, the times from the end of
    one cycle to the start of the next. *)
Lemma elapsed_hint_counterexample :
  snd (run demo_env ["chip.plugin"] 3) = Ret tt demo_final /\
  begin_hints (output (fst (run demo_env ["chip.plugin"] 3))) =
    (repeat Libc.nl 8 ++ repeat (" 800000" ++ Libc.nl)%string 8
     ++ repeat (" 700000" ++ Libc.nl)%string 8)%list /\
  cycle_end_us demo_env 1 - cycle_end_us demo_env 0 = 1100000 /\
  cycle_end_us demo_env 2 - cycle_end_us demo_env 1 = 1200000 /\
  cycle_start_us demo_env 1 - cycle_end_us demo_env 0 = 800000 /\
  cycle_start_us demo_env 2 - cycle_end_us demo_env 1 = 700000.
Proof. vm_compute. repeat split; reflexivity. Qed.

(** ** The interval argument *)

Lemma atoi_fmt_u_interval (k : Z) : 1 <= k <= 360 -> Libc.atoi (Libc.fmt_u k) = k.
Proof.
  intros Hk.
  assert (H : forallb (fun j => Libc.atoi (Libc.fmt_u (Z.of_nat j)) =? Z.of_nat j)
                      (seq 0 361) = true) by (vm_compute; reflexivity).
  rewrite forallb_forall in H.
  specialize (H (Z.to_nat k)). rewrite Z2Nat.id in H by lia.
  apply Z.eqb_eq, H, in_seq. lia.
Qed.

Lemma u16_rejected (v : Z) :
  -65175 <= v <= 0 \/ 360 < v <= 65535 ->
  (u16 v <? 1) || (360 <? u16 v) = true.
Proof.
  intros H. unfold u16. change (2 ^ 16) with 65536.
  destruct (Z.eq_dec v 0) as [->|Hv0]; [reflexivity|].
  apply orb_true_iff. right. apply Z.ltb_lt.
  destruct (Z_lt_le_dec v 0) as [Hneg|Hpos].
  - replace (v mod 65536) with (v + 65536); [lia|].
    apply (Z.mod_unique_pos v 65536 (-1)); lia.
  - rewrite Z.mod_small; lia.
Qed.

(** C4, as the code has it.  With no positional argument the interval is
    1.  Otherwise the first argument is read by [atoi] (white space, an
    optional sign and the decimal digits that follow; the rest of the
    string and any further arguments are ignored): when the number read is
    in [1,360] it becomes the interval, so every integer of [1,360] written
    in decimal is accepted; when it is 0 (as for an argument that starts
    with no digits), or lies in [-65175,-1] or [361,65535], the process
    prints the usage message to stderr and ends with status 1, having done
    nothing else. *)
Theorem interval_argument (e : env) (argv0 : string) (n : nat) :
  (forall g, parse_arguments [argv0] g = ([], Ret tt (set_gUpdateEvery 1 g))) /\
  (forall argv1 rest g,
      1 <= Libc.atoi argv1 <= 360 ->
      parse_arguments (argv0 :: argv1 :: rest) g =
        ([], Ret tt (set_gUpdateEvery (Libc.atoi argv1) g))) /\
  (forall k, 1 <= k <= 360 -> Libc.atoi (Libc.fmt_u k) = k) /\
  (forall argv1 rest,
      -65175 <= Libc.atoi argv1 <= 0 \/ 360 < Libc.atoi argv1 <= 65535 ->
      run e (argv0 :: argv1 :: rest) n = ([Eprintf (usage argv0)], Exit 1)).
Proof.
  split; [|split; [|split]].
  - intros g. reflexivity.
  - intros argv1 rest g H. rewrite parse_arguments_run.
    assert (E : u16 (Libc.atoi argv1) = Libc.atoi argv1)
      by (unfold u16; apply Z.mod_small; change (2 ^ 16) with 65536; lia).
    rewrite E.
    replace ((Libc.atoi argv1 <? 1) || (360 <? Libc.atoi argv1)) with false; [reflexivity|].
    symmetry. apply orb_false_iff. split; apply Z.ltb_ge; lia.
  - exact atoi_fmt_u_interval.
  - intros argv1 rest H. unfold run, main, startup.
    assert (E : parse_arguments (argv0 :: argv1 :: rest) initial_globals =
                ([Eprintf (usage argv0)], Exit 1)).
    { rewrite parse_arguments_run, (u16_rejected _ H). reflexivity. }
    rewrite (bind_exits _ _ _ _ _ (bind_exits _ _ _ _ _ E)). reflexivity.
Qed.

Lemma interval_argument_witness :
  parse_arguments ["chip.plugin"; "360"] initial_globals =
    ([], Ret tt (set_gUpdateEvery 360 initial_globals)) /\
  run demo_env ["chip.plugin"; "361"] 3 = ([Eprintf (usage "chip.plugin")], Exit 1) /\
  run demo_env ["chip.plugin"; "abc"] 3 = ([Eprintf (usage "chip.plugin")], Exit 1).
Proof.
  destruct (interval_argument demo_env "chip.plugin" 3) as (_ & Hacc & _ & Hrej).
  split; [|split].
  - apply (Hacc "360" [] initial_globals). vm_compute. split; discriminate.
  - apply (Hrej "361" []). right. vm_compute. split; [reflexivity | discriminate].
  - apply (Hrej "abc" []). left. vm_compute. split; discriminate.
Defined.

(** C4, as stated, fails.  The argument 5abc is not a number, and 65537 is
    out of range; neither draws the usage message: the process goes on with
    the intervals 5 and 1. *)
Lemma interval_argument_counterexample :
  (parse_arguments ["chip.plugin"; "5abc"] initial_globals =
     ([], Ret tt (set_gUpdateEvery 5 initial_globals)) /\
   stderr (fst (run demo_env ["chip.plugin"; "5abc"] 1)) = EmptyString /\
   snd (run demo_env ["chip.plugin"; "5abc"] 1) =
     Ret tt (set_gUpdateEvery 5 demo_final)) /\
  (parse_arguments ["chip.plugin"; "65537"] initial_globals =
     ([], Ret tt (set_gUpdateEvery 1 initial_globals)) /\
   stderr (fst (run demo_env ["chip.plugin"; "65537"] 1)) = EmptyString /\
   snd (run demo_env ["chip.plugin"; "65537"] 1) = Ret tt demo_final).
Proof. vm_compute. repeat split; reflexivity. Qed.

(** ** The end-of-cycle sleep *)

Lemma processing_us_range (e : env) (i : nat) : 0 <= processing_us e i < 2 ^ 64.
Proof. unfold processing_us, u64. apply Z.mod_pos_bound. lia. Qed.

(** C2 (what the code does).  In every iteration that completes and whose
    processing time exceeds the interval, the argument of [usleep] is not
    0: the unsigned subtraction wraps, and the argument is 2^64 minus the
    excess. *)
Theorem overrun_sleep_wraps (e : env) (i : nat) (g g' : globals) :
  snd (main_loop e 1 i (previous_end_us e i) g) = Ret tt g' ->
  0 <= gUpdateEvery g ->
  gUpdateEvery g * 1000000 < processing_us e i ->
  sleeps (fst (main_loop e 1 i (previous_end_us e i) g)) =
    [2 ^ 64 - (processing_us e i - gUpdateEvery g * 1000000)].
Proof.
  intros Hret Hevery Hover.
  destruct (main_loop_trace e 1 i g) as (states & _ & _ & _ & Hs & Hlen).
  rewrite Hs, (Hlen _ Hret). cbn [seq map]. f_equal.
  pose proof (processing_us_range e i) as R.
  unfold sleep_us, u64. symmetry.
  apply (Z.mod_unique_pos _ _ (-1)); lia.
Qed.

Lemma overrun_sleep_wraps_witness :
  processing_us overrun_env 0 = 1500000 /\
  sleeps (fst (main_loop overrun_env 1 0 0 (set_gUpdateEvery 1 initial_globals))) =
    [18446744073709051616].
Proof.
  split; [reflexivity|].
  assert (Hret : snd (main_loop overrun_env 1 0 (previous_end_us overrun_env 0)
                        (set_gUpdateEvery 1 initial_globals)) =
                 Ret tt (set_gUpdateEvery 1 demo_samples))
    by (vm_compute; reflexivity).
  assert (Hevery : 0 <= gUpdateEvery (set_gUpdateEvery 1 initial_globals))
    by (vm_compute; discriminate).
  assert (Hover : gUpdateEvery (set_gUpdateEvery 1 initial_globals) * 1000000
                  < processing_us overrun_env 0) by (vm_compute; reflexivity).
  exact (overrun_sleep_wraps overrun_env 0 _ _ Hret Hevery Hover).
Defined.

(** The same in a whole run with the default interval of one second: the
    one call of [usleep] gets 2^64 - 500000. *)
Lemma overrun_run_sleeps :
  sleeps (fst (run overrun_env ["chip.plugin"] 1)) = [18446744073709051616].
Proof. vm_compute. reflexivity. Qed.

(** ** The internal temperature *)

Lemma decoded_internaltemp (b : bus) (g' : globals) :
  decoded_from b g' ->
  is_valid internaltemp g' = true /\
  format_data_value internaltemp g' <> EmptyString.
Proof.
  intros (t & g & E).
  destruct (gather_chart_data_returned _ _ _ _ E)
    as (cc & th & tl & vi & _ & _ & _ & _ & _ & _ & Htemp & _).
  rewrite format_data_value_sample, sample_is_valid, Htemp.
  split; [reflexivity|]. apply (fmt_f_nonempty 0).
Qed.

Lemma Forall2_right {A B : Type} (R : A -> B -> Prop) (P : B -> Prop)
    (l1 : list A) (l2 : list B) :
  (forall a b, R a b -> P b) -> Forall2 R l1 l2 -> Forall P l2.
Proof. intros H. induction 1; constructor; eauto. Qed.

(** C10. Every cycle that returns has marked the internal temperature
    valid, whatever the registers hold, and it renders as a non-empty text;
    every frame has a SET line for it; so in every run each frame on stdout
    is printed from globals in which the internal temperature is valid and
    renders non-empty. *)
Theorem internal_temperature_always_valid :
  (forall (b : bus) (g g' : globals) (t : list event),
      gather_chart_data b g = (t, Ret tt g') ->
      is_valid internaltemp g' = true /\
      format_data_value internaltemp g' <> EmptyString) /\
  (forall (delayus : Z) (g' : globals),
      print_chart_data delayus g' = (frame_events delayus g', Ret tt g') /\
      In (Printf ("SET internaltemp = " ++ format_data_value internaltemp g' ++ Libc.nl))
         (frame_events delayus g')) /\
  (forall (e : env) (argv : list string) (n : nat),
      (exists t, run e argv n = (t, Exit 1) /\ output t = []) \/
      (exists states,
          output (fst (run e argv n)) = (preamble_events ++ frames_from e 0 states)%list /\
          Forall (fun g' => is_valid internaltemp g' = true /\
                            format_data_value internaltemp g' <> EmptyString) states)).
Proof.
  split; [|split].
  - intros b g g' t E. apply (decoded_internaltemp b). exists t, g. exact E.
  - intros delayus g'. split; [apply print_chart_data_run|].
    unfold frame_events, chart_frame_events. cbn. auto.
  - intros e argv n.
    destruct (run_trace e argv n) as [H|(every & states & _ & _ & Hdec & Hout & _)].
    + left. exact H.
    + right. exists states. split; [exact Hout|].
      apply (Forall2_right _ _ _ _ (fun j gj => decoded_internaltemp (cycle_bus e j) gj) Hdec).
Qed.

Lemma internal_temperature_always_valid_witness :
  is_valid internaltemp demo_samples = true /\
  format_data_value internaltemp demo_samples <> EmptyString.
Proof.
  exact (proj1 internal_temperature_always_valid demo_bus initial_globals demo_samples _
           demo_cycle).
Defined.

(** ** Further properties *)

Lemma u8_byte_val (b : byte) : u8 (byte_val b) = byte_val b.
Proof. unfold u8. apply Z.mod_small. pose proof (byte_val_range b). lia. Qed.

(** The samples that depend on the power status register (0x01). *)
Lemma gather_chart_data_groups (b : bus) (g : globals) :
  wp (gather_chart_data b) bus_event
    (fun _ g' =>
       exists power_status,
         b 0x01 = Byte power_status /\
         is_valid batlevel g' = c_true (Z.land (u8 (byte_val power_status)) 0x20) /\
         is_valid batcharge g' = c_true (Z.land (u8 (byte_val power_status)) 0x20) /\
         is_valid batdischarge g' = c_true (Z.land (u8 (byte_val power_status)) 0x20) /\
         is_valid batvoltage g' = c_true (Z.land (u8 (byte_val power_status)) 0x20) /\
         is_valid vbusvoltage g' = c_true (Z.land (u8 (byte_val power_status)) 0x20) /\
         is_valid vbuscurrent g' = c_true (Z.land (u8 (byte_val power_status)) 0x20) /\
         is_valid acinvoltage g' = c_true (Z.land (u8 (byte_val power_status)) 0x80) /\
         is_valid acincurrent g' = c_true (Z.land (u8 (byte_val power_status)) 0x80) /\
         (c_true (Z.land (u8 (byte_val power_status)) 0x20) = true ->
          exists high low gauge,
            b 0x7C = Byte high /\ b 0x7D = Byte low /\ b 0xB9 = Byte gauge /\
            sample batdischarge g' =
              Some (u16 (Z.lor (Z.shiftl (byte_val high) 5) (Z.land (byte_val low) 0x1F))) /\
            sample batlevel g' = Some (u8 (Z.land (byte_val gauge) 0x7F))))
    g.
Proof.
  unfold gather_chart_data.
  repeat wp_step;
    match goal with
    | H01 : b 1 = Byte ?ps |- _ => exists ps
    end;
    repeat match goal with
           | H : _ = true |- _ => rewrite H
           | H : _ = false |- _ => rewrite H
           end;
    repeat (split; [first [assumption | reflexivity] |]);
    first [ discriminate
          | intros _;
            match goal with
            | H7C : b 124 = Byte ?hi, H7D : b 125 = Byte ?lo, HB9 : b 185 = Byte ?ga |- _ =>
                exists hi, lo, ga
            end;
            repeat (split; [first [assumption | reflexivity] |]); reflexivity ].
Qed.

(** X4. Conditional groups.  After a cycle that returned, the battery
    quantities (charge level, charge rate, discharge rate, voltage) and the
    bus-input voltage and current are valid exactly when bit 0x20 of the
    power status register is set; the AC-input voltage and current are
    valid exactly when bit 0x80 is. *)
Theorem conditional_groups
    (b : bus) (g g' : globals) (t : list event) (power_status : byte) :
  gather_chart_data b g = (t, Ret tt g') ->
  b 0x01 = Byte power_status ->
  let battery := negb (Z.land (byte_val power_status) 0x20 =? 0) in
  let acin := negb (Z.land (byte_val power_status) 0x80 =? 0) in
  map (fun d => is_valid d g')
      [batlevel; batcharge; batdischarge; batvoltage; vbusvoltage; vbuscurrent] =
    repeat battery 6 /\
  map (fun d => is_valid d g') [acinvoltage; acincurrent] = repeat acin 2.
Proof.
  intros E Hb.
  destruct (proj2 (wp_returned _ _ _ _ _ _ _ (gather_chart_data_groups b g) E))
    as (ps & H01 & H1 & H2 & H3 & H4 & H5 & H6 & H7 & H8 & _).
  rewrite Hb in H01. injection H01 as <-.
  rewrite u8_byte_val in *. unfold c_true in *.
  cbn [map repeat]. rewrite H1, H2, H3, H4, H5, H6, H7, H8. split; reflexivity.
Qed.

Lemma conditional_groups_witness :
  map (fun d => is_valid d demo_samples)
      [batlevel; batcharge; batdischarge; batvoltage; vbusvoltage; vbuscurrent] =
    repeat true 6 /\
  map (fun d => is_valid d demo_samples) [acinvoltage; acincurrent] = repeat true 2.
Proof.
  exact (conditional_groups demo_bus initial_globals demo_samples _ xa0 demo_cycle eq_refl).
Defined.

(** X5. Battery fields.  When bit 0x20 of the power status is set, the
    discharge rate is [(high << 5) | (low & 0x1F)] of registers 0x7C and
    0x7D and the charge level is the low 7 bits of register 0xB9; both
    render in decimal. *)
Theorem battery_fields_decoded
    (b : bus) (g g' : globals) (t : list event) (power_status high low gauge : byte) :
  gather_chart_data b g = (t, Ret tt g') ->
  b 0x01 = Byte power_status ->
  Z.land (byte_val power_status) 0x20 <> 0 ->
  b 0x7C = Byte high -> b 0x7D = Byte low -> b 0xB9 = Byte gauge ->
  option_map asUint16 (sample batdischarge g') =
    Some (Z.lor (Z.shiftl (byte_val high) 5) (Z.land (byte_val low) 0x1F)) /\
  option_map asUint8 (sample batlevel g') = Some (Z.land (byte_val gauge) 0x7F) /\
  format_data_value batdischarge g' =
    Libc.fmt_u (Z.lor (Z.shiftl (byte_val high) 5) (Z.land (byte_val low) 0x1F)) /\
  format_data_value batlevel g' = Libc.fmt_u (Z.land (byte_val gauge) 0x7F).
Proof.
  intros E Hps Hbit H7C H7D HB9.
  destruct (proj2 (wp_returned _ _ _ _ _ _ _ (gather_chart_data_groups b g) E))
    as (ps & H01 & _ & _ & _ & _ & _ & _ & _ & _ & Hbat).
  rewrite Hps in H01. injection H01 as <-.
  destruct Hbat as (hi & lo & ga & H7C' & H7D' & HB9' & Hdis & Hlev).
  { rewrite u8_byte_val. unfold c_true. apply negb_true_iff, Z.eqb_neq, Hbit. }
  rewrite H7C in H7C'. rewrite H7D in H7D'. rewrite HB9 in HB9'.
  injection H7C' as <-. injection H7D' as <-. injection HB9' as <-.
  pose proof (byte_val_range high) as Rh. pose proof (byte_val_range low) as Rl.
  pose proof (byte_val_range gauge) as Rg.
  assert (R1 : 0 <= Z.lor (Z.shiftl (byte_val high) 5) (Z.land (byte_val low) 0x1F) < 2 ^ 16).
  { apply (lor_below_pow2 _ _ 16); [lia | |].
    - rewrite Z.shiftl_mul_pow2 by lia. change (2 ^ 5) with 32. change (2 ^ 16) with 65536. lia.
    - pose proof (land_low_range (byte_val low) 5). change (2 ^ 5 - 1) with 31 in *.
      change (2 ^ 5) with 32 in *. change (2 ^ 16) with 65536. lia. }
  assert (R2 : 0 <= Z.land (byte_val gauge) 0x7F < 2 ^ 8).
  { pose proof (land_low_range (byte_val gauge) 7). change (2 ^ 7 - 1) with 127 in *.
    change (2 ^ 7) with 128 in *. change (2 ^ 8) with 256. lia. }
  rewrite !format_data_value_sample, Hdis, Hlev.
  cbn [option_map]. unfold asUint16, asUint8, u16, u8.
  change (dim_DataType (dimension_definition batdischarge)) with Uint16.
  change (dim_DataFormat (dimension_definition batdischarge)) with Fmt_u.
  change (dim_DataType (dimension_definition batlevel)) with Uint8.
  change (dim_DataFormat (dimension_definition batlevel)) with Fmt_u.
  cbv beta iota. unfold asUint16, asUint8.
  rewrite !(Z.mod_small _ (2 ^ 16)) by (try rewrite Z.mod_small; lia).
  rewrite !(Z.mod_small _ (2 ^ 8)) by (try rewrite Z.mod_small; lia).
  repeat split; reflexivity.
Qed.

Lemma battery_fields_decoded_witness :
  format_data_value batdischarge demo_samples = "2047"%string /\
  format_data_value batlevel demo_samples = "63"%string.
Proof.
  assert (Hbit : Z.land (byte_val xa0) 0x20 <> 0) by (vm_compute; discriminate).
  destruct (battery_fields_decoded demo_bus initial_globals demo_samples _ xa0 x3f x3f x3f
              demo_cycle eq_refl Hbit eq_refl eq_refl eq_refl) as (_ & _ & H1 & H2).
  split; [exact H1 | exact H2].
Defined.

Lemma gather_chart_data_returns_witness :
  returns (gather_chart_data demo_bus) initial_globals.
Proof.
  apply gather_chart_data_returns. intros address. eexists. reflexivity.
Defined.

Lemma wp_events_weaken {A : Type} (m : M A) (T T' : event -> Prop)
    (Q : A -> globals -> Prop) (g : globals) :
  (forall ev, T ev -> T' ev) -> wp m T Q g -> wp m T' Q g.
Proof.
  unfold wp. intros H [Ht HQ]. split; [|exact HQ].
  eapply Forall_impl; [exact H | exact Ht].
Qed.

Lemma wp_any_event {A : Type} (m : M A) (Q : A -> globals -> Prop) (g : globals) :
  match snd (m g) with
  | Ret a g' => Q a g'
  | Exit status => status = 1
  end ->
  wp m (fun _ => True) Q g.
Proof. intros H. split; [|exact H]. apply Forall_forall. intros; exact I. Qed.

Lemma main_loop_exits_with_1 (e : env) (n : nat) :
  forall (i : nat) (endtimeus : Z) (g : globals),
    wp (main_loop e n i endtimeus) (fun _ => True) (fun _ _ => True) g.
Proof.
  induction n as [|n IH]; intros i endtimeus g; cbn [main_loop].
  - apply wp_ret. exact I.
  - cbv zeta. apply wp_bind.
    apply (wp_weaken _ _ (fun _ _ => True)).
    + intros _ g1 _. apply wp_bind, wp_any_event.
      rewrite print_chart_data_run. cbn [snd].
      apply wp_bind, wp_get, wp_bind, wp_emit; [exact I|]. apply IH.
    + apply (wp_events_weaken _ bus_event); [intros; exact I|].
      apply (wp_weaken _ _ _ _ _ (fun _ _ _ => I) (gather_chart_data_samples _ g)).
Qed.

(** X2. Whenever the process ends (a bad argument, a bus that cannot be opened
    or addressed, a failed transfer during start-up or during a cycle), its
    exit status is 1. *)
Theorem exit_status_is_1
    (e : env) (argv : list string) (n : nat) (t : list event) (status : Z) :
  run e argv n = (t, Exit status) -> status = 1.
Proof.
  intros E.
  assert (H : wp (main e argv n) (fun _ => True) (fun _ _ => True) initial_globals).
  { unfold main. apply wp_bind, wp_any_event.
    destruct (startup_run e argv initial_globals) as [(t0 & E0 & _)|(t0 & every & _ & E0 & _)];
      rewrite E0; cbn [snd]; [reflexivity|].
    apply main_loop_exits_with_1. }
  destruct H as [_ H]. unfold run in E. rewrite E in H. exact H.
Qed.

Lemma exit_status_is_1_witness :
  match snd (run demo_env ["chip.plugin"; "0"] 2) with
  | Exit status => status
  | Ret _ _ => 0
  end = 1.
Proof.
  apply (exit_status_is_1 demo_env ["chip.plugin"; "0"] 2 [Eprintf (usage "chip.plugin")]).
  vm_compute. reflexivity.
Defined.

(** X3. The enable sequence on a device that answers: both ADC enable registers
    are read; each is written back with the required bits set when it lacks
    some of them; the process pauses for 40 ms exactly when it has written;
    the globals are untouched and the result is 0. *)
Theorem enable_adc_sequence (e : env) (g : globals) (v82 v83 : byte) :
  0 <= ioctl_result e ->
  adc_bus e 0x82 = Byte v82 ->
  adc_bus e 0x83 = Byte v83 ->
  adc_write_ok e 0x82 = true ->
  adc_write_ok e 0x83 = true ->
  let set82 := Z.land (byte_val v82) 0xCC =? 0xCC in
  let set83 := Z.land (byte_val v83) 0x80 =? 0x80 in
  enable_adc e g =
    (([SysIoctl AXP209_ADDRESS; BusWrite [0x82]; BusRead]
      ++ (if set82 then [] else [BusWrite [0x82; Z.lor (byte_val v82) 0xCC]])
      ++ [BusWrite [0x83]; BusRead]
      ++ (if set83 then [] else [BusWrite [0x83; Z.lor (byte_val v83) 0x80]])
      ++ (if set82 && set83 then [] else [Usleep 40000]))%list,
     Ret 0 g).
Proof.
  intros Hioctl H82 H83 Hw82 Hw83.
  assert (L : forall x m, 0 <= m < 256 -> u8 (Z.lor (u8 (byte_val x)) m) = Z.lor (byte_val x) m).
  { intros x m Hm. unfold u8. rewrite (Z.mod_small (byte_val x)) by apply byte_val_range.
    apply Z.mod_small. apply (lor_below_pow2 _ _ 8); [lia | apply byte_val_range | exact Hm]. }
  unfold enable_adc, read_register_value, write_register_value, bind, emit, ret, exit.
  cbv zeta.
  destruct (Z.ltb_spec (ioctl_result e) 0) as [Hneg|_]; [lia|].
  rewrite H82, H83, Hw82, Hw83, !L by lia.
  unfold u8. rewrite !(Z.mod_small (byte_val _)) by apply byte_val_range.
  destruct (Z.land (byte_val v82) 204 =? 204), (Z.land (byte_val v83) 128 =? 128); reflexivity.
Qed.

Lemma enable_adc_sequence_witness :
  enable_adc demo_env initial_globals =
    ([SysIoctl AXP209_ADDRESS; BusWrite [0x82]; BusRead; BusWrite [0x83]; BusRead],
     Ret 0 initial_globals).
Proof.
  assert (Hioctl : 0 <= ioctl_result demo_env) by (vm_compute; discriminate).
  exact (enable_adc_sequence demo_env initial_globals xff xff Hioctl
           eq_refl eq_refl eq_refl eq_refl).
Defined.

(** The samples of [demo_bus], rendered: the temperature registers 0x12 and
    0x3F reassemble to 303, which is 303 * 0.18 - 228.46 = -173.92 degrees;
    the bus voltage limit shows the two low bytes of the float 5200.0. *)
Example demo_rendered :
  map (fun d => format_data_value d demo_samples)
      [internaltemp; batlevel; chargelimit; chargeterm; batcharge; batdischarge;
       batvoltage; acinvoltage; acincurrent; vbusvoltage; vbusvoltagelimit;
       vbuscurrent; vbuscurrentlimit] =
    ["-173.9"; "63"; "1800"; "270"; "511.5"; "2047"; "1125.3"; "1739.1"; "639.375";
     "1739.1"; "32768"; "383.625"; "900"]%string.
Proof. vm_compute. reflexivity. Qed.

(** ** The sample store *)

Lemma land_bit (x j : Z) :
  0 <= j -> Z.land x (Z.shiftl 1 j) = if Z.testbit x j then Z.shiftl 1 j else 0.
Proof.
  intros Hj. apply Z.bits_inj'. intros k Hk.
  rewrite Z.land_spec, Z.shiftl_spec by lia.
  destruct (Z.eq_dec k j) as [->|Hne].
  - rewrite Z.sub_diag. change (Z.testbit 1 0) with true. rewrite andb_true_r.
    destruct (Z.testbit x j).
    + rewrite Z.shiftl_spec, Z.sub_diag by lia. reflexivity.
    + rewrite Z.bits_0. reflexivity.
  - assert (E : Z.testbit 1 (k - j) = false).
    { destruct (Z_lt_le_dec (k - j) 0) as [Hlt|Hge].
      - destruct (k - j); try lia. reflexivity.
      - change 1 with (2 ^ 0). apply Z.pow2_bits_false. lia. }
    rewrite E, andb_false_r.
    destruct (Z.testbit x j).
    + rewrite Z.shiftl_spec, E by lia. reflexivity.
    + rewrite Z.bits_0. reflexivity.
Qed.

Lemma is_valid_testbit (index : Dimensions) (g : globals) :
  is_valid index g = Z.testbit (gIsValid g) (Z.of_nat (dim_index index)).
Proof.
  unfold is_valid, valid_bit. rewrite land_bit by lia.
  destruct (Z.testbit (gIsValid g) (Z.of_nat (dim_index index))); [|reflexivity].
  rewrite Z.shiftl_1_l.
  destruct (Z.eqb_spec (2 ^ Z.of_nat (dim_index index)) 0) as [E|_]; [|reflexivity].
  pose proof (Z.pow_pos_nonneg 2 (Z.of_nat (dim_index index))). lia.
Qed.

Lemma dim_index_range (index : Dimensions) : (dim_index index <= 13)%nat.
Proof. destruct index; cbn; lia. Qed.

Lemma dim_index_inj (a b : Dimensions) : dim_index a = dim_index b -> a = b.
Proof. destruct a, b; cbn; intros H; first [reflexivity | discriminate H]. Qed.

Lemma is_valid_mark_valid (index other : Dimensions) (g : globals) :
  is_valid other (mark_valid index g) =
    is_valid other g || Dimensions_eqb index other.
Proof.
  rewrite !is_valid_testbit. unfold mark_valid, valid_bit, u32, Dimensions_eqb.
  cbn [gIsValid set_gIsValid].
  pose proof (dim_index_range other) as Ro. pose proof (dim_index_range index) as Ri.
  rewrite Z.mod_pow2_bits_low by lia.
  rewrite Z.lor_spec, Z.shiftl_spec by lia. f_equal.
  destruct (Nat.eqb_spec (dim_index index) (dim_index other)) as [E|Hne].
  - rewrite E, Z.sub_diag. reflexivity.
  - destruct (Z_lt_le_dec (Z.of_nat (dim_index other) - Z.of_nat (dim_index index)) 0) as [Hlt|Hge].
    + destruct (Z.of_nat (dim_index other) - Z.of_nat (dim_index index)); try lia. reflexivity.
    + change 1 with (2 ^ 0). apply Z.pow2_bits_false. lia.
Qed.

Lemma nth_update_nth_same {A : Type} (n : nat) (v d : A) (l : list A) :
  (n < List.length l)%nat -> nth n (update_nth n v l) d = v.
Proof.
  revert n. induction l as [|x l IH]; intros [|n] H; cbn in *; try lia; [reflexivity|].
  apply IH. lia.
Qed.

Lemma nth_update_nth_other {A : Type} (n m : nat) (v d : A) (l : list A) :
  n <> m -> nth m (update_nth n v l) d = nth m l d.
Proof.
  revert n m. induction l as [|x l IH]; intros [|n] [|m] H; cbn; try reflexivity; try lia.
  apply IH. lia.
Qed.

Lemma length_update_nth {A : Type} (n : nat) (v : A) (l : list A) :
  List.length (update_nth n v l) = List.length l.
Proof.
  revert n. induction l as [|x l IH]; intros [|n]; cbn; try reflexivity.
  rewrite IH. reflexivity.
Qed.

Lemma Forall_update_nth {A : Type} (P : A -> Prop) (n : nat) (v : A) (l : list A) :
  P v -> Forall P l -> Forall P (update_nth n v l).
Proof.
  intros Hv. revert n. induction l as [|x l IH]; intros [|n] H; cbn; try assumption.
  - inversion H; subst. constructor; assumption.
  - inversion H; subst. constructor; [assumption | apply IH; assumption].
Qed.

(** *** The bits of a float *)

Lemma digits2_pos_bounds (m : positive) :
  2 ^ (Zpos (digits2_pos m) - 1) <= Zpos m < 2 ^ Zpos (digits2_pos m).
Proof.
  induction m as [m IH|m IH|]; cbn [digits2_pos].
  - rewrite Pos2Z.inj_succ.
    replace (Z.succ (Zpos (digits2_pos m)) - 1) with (Z.succ (Zpos (digits2_pos m) - 1)) by lia.
    rewrite !Z.pow_succ_r by lia. lia.
  - rewrite Pos2Z.inj_succ.
    replace (Z.succ (Zpos (digits2_pos m)) - 1) with (Z.succ (Zpos (digits2_pos m) - 1)) by lia.
    rewrite !Z.pow_succ_r by lia. lia.
  - cbn. lia.
Qed.

(** A binary32 number is subnormal (exponent -149, mantissa below 2^23) or
    normal (mantissa of 24 bits, exponent between -149 and 104). *)
Lemma is_float_finite (s : bool) (m : positive) (e : Z) :
  is_float (S754_finite s m e) ->
  (Zpos m < 2 ^ 23 /\ e = -149) \/
  (2 ^ 23 <= Zpos m < 2 ^ 24 /\ -149 <= e <= 104).
Proof.
  unfold is_float, valid_binary, bounded, canonical_mantissa, fexp, emin.
  intros H. apply andb_true_iff in H. destruct H as [Hc He].
  apply Z.eqb_eq in Hc. apply Z.leb_le in He.
  pose proof (digits2_pos_bounds m) as Hd.
  set (d := Zpos (digits2_pos m)) in *.
  assert (Hd1 : 1 <= d) by (unfold d; lia).
  destruct (Z_lt_le_dec d 24) as [Hlt|Hge].
  - left. split; [|lia].
    assert (2 ^ d <= 2 ^ 23) by (apply Z.pow_le_mono_r; lia). lia.
  - right. assert (d = 24) by lia.
    replace d with 24 in Hd by lia. change (24 - 1) with 23 in Hd. lia.
Qed.

Lemma testbit_31 (s : bool) (r : Z) :
  0 <= r < 2 ^ 31 -> Z.testbit (sign_bit s + r) 31 = s.
Proof.
  intros Hr. unfold sign_bit. destruct s.
  - apply Z.testbit_true; [lia|].
    replace ((2 ^ 31 + r) / 2 ^ 31) with 1; [reflexivity|].
    apply (Z.div_unique_pos _ _ 1 r); lia.
  - apply Z.testbit_false; [lia|].
    rewrite Z.div_small by lia. reflexivity.
Qed.

(** Reading back the bits of a [float] gives the [float]. *)
Lemma b32_of_bits_of_b32 (x : spec_float) :
  is_float x -> b32_of_bits (bits_of_b32 x) = x.
Proof.
  intros Hx. destruct x as [s|s| |s m e].
  - destruct s; reflexivity.
  - destruct s; reflexivity.
  - reflexivity.
  - apply is_float_finite in Hx. unfold bits_of_b32, b32_of_bits.
    destruct Hx as [[Hm He]|[Hm He]].
    + subst e. destruct (Z.ltb_spec (Zpos m) (2 ^ 23)) as [_|?]; [|lia].
      rewrite testbit_31 by lia.
      assert (E1 : ((sign_bit s + Zpos m) / 2 ^ 23) mod 2 ^ 8 = 0).
      { unfold sign_bit. destruct s.
        - replace ((2 ^ 31 + Zpos m) / 2 ^ 23) with 256; [reflexivity|].
          apply (Z.div_unique_pos _ _ 256 (Zpos m)); lia.
        - rewrite Z.add_0_l, Z.div_small by lia. reflexivity. }
      assert (E2 : (sign_bit s + Zpos m) mod 2 ^ 23 = Zpos m).
      { unfold sign_bit. destruct s.
        - symmetry. apply (Z.mod_unique_pos _ _ 256); lia.
        - rewrite Z.add_0_l. apply Z.mod_small. lia. }
      rewrite E1, E2. reflexivity.
    + destruct (Z.ltb_spec (Zpos m) (2 ^ 23)) as [?|_]; [lia|].
      rewrite testbit_31 by lia.
      assert (E1 : ((sign_bit s + ((e + 150) * 2 ^ 23 + (Zpos m - 2 ^ 23))) / 2 ^ 23) mod 2 ^ 8
                   = e + 150).
      { unfold sign_bit. destruct s.
        - replace ((2 ^ 31 + ((e + 150) * 2 ^ 23 + (Zpos m - 2 ^ 23))) / 2 ^ 23)
            with (256 + (e + 150)).
          + symmetry. apply (Z.mod_unique_pos _ _ 1); lia.
          + apply (Z.div_unique_pos _ _ _ (Zpos m - 2 ^ 23)); lia.
        - rewrite Z.add_0_l.
          replace (((e + 150) * 2 ^ 23 + (Zpos m - 2 ^ 23)) / 2 ^ 23) with (e + 150).
          + apply Z.mod_small. lia.
          + apply (Z.div_unique_pos _ _ _ (Zpos m - 2 ^ 23)); lia. }
      assert (E2 : (sign_bit s + ((e + 150) * 2 ^ 23 + (Zpos m - 2 ^ 23))) mod 2 ^ 23
                   = Zpos m - 2 ^ 23).
      { unfold sign_bit. destruct s.
        - symmetry. apply (Z.mod_unique_pos _ _ (256 + (e + 150))); lia.
        - rewrite Z.add_0_l. symmetry. apply (Z.mod_unique_pos _ _ (e + 150)); lia. }
      rewrite E1, E2.
      destruct (Z.eqb_spec (e + 150) 255) as [?|_]; [lia|].
      destruct (Z.eqb_spec (e + 150) 0) as [?|_]; [lia|].
      replace (Zpos m - 2 ^ 23 + 2 ^ 23) with (Zpos m) by lia.
      replace (e + 150 - 150) with e by lia. reflexivity.
Qed.

Lemma bits_of_b32_range (x : spec_float) :
  is_float x -> 0 <= bits_of_b32 x < 2 ^ 32.
Proof.
  intros Hx. destruct x as [s|s| |s m e]; unfold bits_of_b32, sign_bit.
  - destruct s; lia.
  - destruct s; lia.
  - lia.
  - apply is_float_finite in Hx.
    destruct Hx as [[Hm He]|[Hm He]].
    + destruct (Z.ltb_spec (Zpos m) (2 ^ 23)) as [_|?]; [|lia]. destruct s; lia.
    + destruct (Z.ltb_spec (Zpos m) (2 ^ 23)) as [?|_]; [lia|]. destruct s; lia.
Qed.

(** *** Saving and rendering *)

Lemma save_data_float_run (index : Dimensions) (value : spec_float) (g : globals) :
  save_data_float index value g =
    ([], Ret tt (mark_valid index (store_cell index (fun cell => set_asFloat cell value) g))).
Proof. reflexivity. Qed.

Lemma save_data_uint8_run (index : Dimensions) (value : Z) (g : globals) :
  save_data_uint8 index value g =
    ([], Ret tt (mark_valid index (store_cell index (fun cell => set_asUint8 cell value) g))).
Proof. reflexivity. Qed.

Lemma save_data_uint16_run (index : Dimensions) (value : Z) (g : globals) :
  save_data_uint16 index value g =
    ([], Ret tt (mark_valid index (store_cell index (fun cell => set_asUint16 cell value) g))).
Proof. reflexivity. Qed.

Lemma real_dimension_index (index : Dimensions) (g : globals) :
  globals_typed g -> index <> MaxDimensions -> (dim_index index < List.length (gData g))%nat.
Proof.
  intros (Hlen & _) Hreal. rewrite Hlen.
  destruct index; cbn; try lia. contradiction.
Qed.

Lemma Dimensions_eqb_refl (index : Dimensions) : Dimensions_eqb index index = true.
Proof. apply Nat.eqb_refl. Qed.

Lemma Dimensions_eqb_neq (a b : Dimensions) : a <> b -> Dimensions_eqb a b = false.
Proof.
  intros H. apply Nat.eqb_neq. intros E. apply H, dim_index_inj, E.
Qed.

(** The sample of the dimension just stored. *)
Lemma sample_stored (index : Dimensions) (f : value_t -> value_t) (g : globals) :
  globals_typed g -> index <> MaxDimensions ->
  sample index (mark_valid index (store_cell index f g)) =
    Some (f (nth (dim_index index) (gData g) 0)).
Proof.
  intros Hg Hreal. unfold sample.
  rewrite is_valid_mark_valid, Dimensions_eqb_refl, orb_true_r.
  cbn [mark_valid store_cell gData set_gData set_gIsValid].
  rewrite nth_update_nth_same by (apply real_dimension_index; assumption).
  reflexivity.
Qed.

(** The samples of the other dimensions. *)
Lemma sample_not_stored (index other : Dimensions) (f : value_t -> value_t) (g : globals) :
  other <> index ->
  sample other (mark_valid index (store_cell index f g)) = sample other g.
Proof.
  intros Hne. unfold sample.
  rewrite is_valid_mark_valid, Dimensions_eqb_neq, orb_false_r by congruence.
  cbn [mark_valid store_cell gData set_gData set_gIsValid].
  rewrite nth_update_nth_other; [reflexivity|].
  intros E. apply Hne. symmetry. apply dim_index_inj, E.
Qed.

Lemma stored_typed (index : Dimensions) (f : value_t -> value_t) (g : globals) :
  globals_typed g ->
  0 <= f (nth (dim_index index) (gData g) 0) < 2 ^ 32 ->
  globals_typed (mark_valid index (store_cell index f g)).
Proof.
  intros (Hlen & Hcells & Hvalid) Hf. unfold globals_typed.
  cbn [mark_valid store_cell gData gIsValid set_gData set_gIsValid].
  rewrite length_update_nth. split; [exact Hlen|]. split.
  - apply Forall_update_nth; assumption.
  - unfold u32. apply Z.mod_pos_bound. lia.
Qed.

Lemma cell_range (index : Dimensions) (g : globals) :
  globals_typed g -> 0 <= nth (dim_index index) (gData g) 0 < 2 ^ 32.
Proof.
  intros (_ & Hcells & _).
  destruct (Nat.lt_ge_cases (dim_index index) (List.length (gData g))) as [Hlt|Hge].
  - rewrite Forall_forall in Hcells. apply Hcells, nth_In, Hlt.
  - rewrite nth_overflow by exact Hge. lia.
Qed.

Lemma set_asUint16_view (cell value : Z) :
  0 <= cell < 2 ^ 32 -> 0 <= value < 2 ^ 16 ->
  asUint16 (set_asUint16 cell value) = value /\
  set_asUint16 cell value / 2 ^ 16 = cell / 2 ^ 16 /\
  0 <= set_asUint16 cell value < 2 ^ 32.
Proof.
  intros Hc Hv. unfold asUint16, set_asUint16.
  pose proof (Z.div_mod cell (2 ^ 16) ltac:(lia)) as D.
  pose proof (Z.mod_pos_bound cell (2 ^ 16) ltac:(lia)) as M.
  assert (Q : 0 <= cell / 2 ^ 16 < 2 ^ 16).
  { split; [apply Z.div_pos; lia | apply Z.div_lt_upper_bound; lia]. }
  replace (cell - cell mod 2 ^ 16 + value) with (2 ^ 16 * (cell / 2 ^ 16) + value) by lia.
  split; [|split].
  - symmetry. apply (Z.mod_unique_pos _ _ (cell / 2 ^ 16)); lia.
  - symmetry. apply (Z.div_unique_pos _ _ _ value); lia.
  - lia.
Qed.

Lemma set_asUint8_view (cell value : Z) :
  0 <= cell < 2 ^ 32 -> 0 <= value < 2 ^ 8 ->
  asUint8 (set_asUint8 cell value) = value /\
  set_asUint8 cell value / 2 ^ 8 = cell / 2 ^ 8 /\
  0 <= set_asUint8 cell value < 2 ^ 32.
Proof.
  intros Hc Hv. unfold asUint8, set_asUint8.
  pose proof (Z.div_mod cell (2 ^ 8) ltac:(lia)) as D.
  pose proof (Z.mod_pos_bound cell (2 ^ 8) ltac:(lia)) as M.
  assert (Q : 0 <= cell / 2 ^ 8 < 2 ^ 24).
  { split; [apply Z.div_pos; lia | apply Z.div_lt_upper_bound; lia]. }
  replace (cell - cell mod 2 ^ 8 + value) with (2 ^ 8 * (cell / 2 ^ 8) + value) by lia.
  split; [|split].
  - symmetry. apply (Z.mod_unique_pos _ _ (cell / 2 ^ 8)); lia.
  - symmetry. apply (Z.div_unique_pos _ _ _ value); lia.
  - lia.
Qed.

(** X6. Saving and then rendering: for a dimension of the catalog whose
    declared kind is that of the save function used, and a value of that
    kind, the text rendered right after the save is the formatting of
    exactly the value saved (decimal for the two integer kinds, the declared
    number of decimals for [float]), whatever the store held before; the
    globals stay within their C types. *)
Theorem save_then_format (index : Dimensions) (g : globals) :
  globals_typed g ->
  index <> MaxDimensions ->
  (forall value,
      dim_DataType (dimension_definition index) = Uint8 -> 0 <= value < 2 ^ 8 ->
      exists g', save_data_uint8 index value g = ([], Ret tt g') /\
                 globals_typed g' /\
                 format_data_value index g' = Libc.fmt_u value) /\
  (forall value,
      dim_DataType (dimension_definition index) = Uint16 -> 0 <= value < 2 ^ 16 ->
      exists g', save_data_uint16 index value g = ([], Ret tt g') /\
                 globals_typed g' /\
                 format_data_value index g' = Libc.fmt_u value) /\
  (forall value,
      dim_DataType (dimension_definition index) = Float -> is_float value ->
      exists g' p, save_data_float index value g = ([], Ret tt g') /\
                   globals_typed g' /\
                   dim_DataFormat (dimension_definition index) = Fmt_f p /\
                   format_data_value index g' = Libc.fmt_f p value).
Proof.
  intros Hg Hreal.
  pose proof (cell_range index g Hg) as Hc.
  split; [|split]; intros value Hkind Hvalue.
  - destruct (set_asUint8_view _ value Hc Hvalue) as (Hview & _ & Hrange).
    eexists. split; [apply save_data_uint8_run|]. split; [apply stored_typed; assumption|].
    rewrite format_data_value_sample, sample_stored, Hkind, Hview by assumption.
    destruct index; first [discriminate Hkind | reflexivity | contradiction].
  - destruct (set_asUint16_view _ value Hc Hvalue) as (Hview & _ & Hrange).
    eexists. split; [apply save_data_uint16_run|]. split; [apply stored_typed; assumption|].
    rewrite format_data_value_sample, sample_stored, Hkind, Hview by assumption.
    destruct index; first [discriminate Hkind | reflexivity | contradiction].
  - assert (Hp : exists p, dim_DataFormat (dimension_definition index) = Fmt_f p).
    { destruct index; first [discriminate Hkind | eexists; reflexivity | contradiction]. }
    destruct Hp as [p Hp].
    eexists. exists p. split; [apply save_data_float_run|].
    split; [apply stored_typed; [assumption | apply bits_of_b32_range, Hvalue]|].
    split; [exact Hp|].
    rewrite format_data_value_sample, sample_stored, Hkind, Hp by assumption.
    unfold asFloat, set_asFloat. rewrite b32_of_bits_of_b32 by exact Hvalue. reflexivity.
Qed.

Lemma globals_typed_check (g : globals) :
  Nat.eqb (List.length (gData g)) (dim_index MaxDimensions)
  && forallb (fun cell => (0 <=? cell) && (cell <? 2 ^ 32)) (gData g)
  && ((0 <=? gIsValid g) && (gIsValid g <? 2 ^ 32)) = true ->
  globals_typed g.
Proof.
  intros H. apply andb_true_iff in H. destruct H as [H Hv].
  apply andb_true_iff in H. destruct H as [Hl Hc].
  apply andb_true_iff in Hv. destruct Hv as [Hv1 Hv2].
  split; [apply Nat.eqb_eq, Hl|]. split.
  - apply Forall_forall. intros cell Hin.
    rewrite forallb_forall in Hc. specialize (Hc cell Hin).
    apply andb_true_iff in Hc. destruct Hc as [Hc1 Hc2].
    split; [apply Z.leb_le, Hc1 | apply Z.ltb_lt, Hc2].
  - split; [apply Z.leb_le, Hv1 | apply Z.ltb_lt, Hv2].
Qed.

Lemma demo_samples_typed : globals_typed demo_samples.
Proof. apply globals_typed_check. vm_compute. reflexivity. Qed.

Lemma save_then_format_witness :
  format_data_value chargelimit demo_samples = Libc.fmt_u 1800 /\
  exists g', save_data_uint16 chargelimit 700 demo_samples = ([], Ret tt g') /\
             globals_typed g' /\
             format_data_value chargelimit g' = Libc.fmt_u 700.
Proof.
  assert (Hreal : chargelimit <> MaxDimensions) by discriminate.
  assert (Hvalue : 0 <= 700 < 2 ^ 16) by (split; [discriminate | reflexivity]).
  split; [reflexivity|].
  exact (proj1 (proj2 (save_then_format chargelimit demo_samples demo_samples_typed Hreal))
           700 eq_refl Hvalue).
Defined.

(** X7. A save touches one dimension only: after any of the three save
    functions the saved dimension is valid, and every other dimension,
    valid or not, has the sample it had before. *)
Theorem save_leaves_other_samples
    (index other : Dimensions) (g g' : globals) (t : list event) :
  (exists value, save_data_float index value g = (t, Ret tt g')) \/
  (exists value, save_data_uint8 index value g = (t, Ret tt g')) \/
  (exists value, save_data_uint16 index value g = (t, Ret tt g')) ->
  is_valid index g' = true /\
  (other <> index -> sample other g' = sample other g).
Proof.
  intros [[value E]|[[value E]|[value E]]];
    [rewrite save_data_float_run in E
    |rewrite save_data_uint8_run in E
    |rewrite save_data_uint16_run in E];
    injection E as _ <-;
    (split;
     [rewrite is_valid_mark_valid, Dimensions_eqb_refl; apply orb_true_r
     |intros Hne; apply sample_not_stored, Hne]).
Qed.

Lemma save_leaves_other_samples_witness :
  is_valid batlevel (mark_valid batlevel
                       (store_cell batlevel (fun cell => set_asUint8 cell 7) demo_samples))
    = true /\
  sample chargelimit (mark_valid batlevel
                        (store_cell batlevel (fun cell => set_asUint8 cell 7) demo_samples))
    = sample chargelimit demo_samples.
Proof.
  assert (Hne : chargelimit <> batlevel) by discriminate.
  destruct (save_leaves_other_samples batlevel chargelimit demo_samples _ []
              (or_intror (or_introl (ex_intro _ 7 (save_data_uint8_run batlevel 7 demo_samples)))))
    as [H1 H2].
  split; [exact H1 | exact (H2 Hne)].
Defined.

(** ** The two-register read, taken apart *)

Lemma reassembly_parts (high low : Z) :
  0 <= high < 256 -> 0 <= low < 256 ->
  Z.lor (Z.shiftl high 4) (Z.land low 0xF) = 16 * high + low mod 16.
Proof.
  intros Hh Hl.
  assert (Hlow : Z.land low 0xF = low mod 16).
  { change 0xF with (Z.ones 4). rewrite Z.land_ones by lia. reflexivity. }
  rewrite Hlow.
  pose proof (Z.mod_pos_bound low 16 ltac:(lia)) as M.
  set (r := low mod 16) in *.
  assert (R : 0 <= Z.lor (Z.shiftl high 4) r).
  { apply Z.lor_nonneg. split; [apply Z.shiftl_nonneg|]; lia. }
  assert (D : Z.lor (Z.shiftl high 4) r / 16 = high).
  { change 16 with (2 ^ 4). rewrite <- Z.shiftr_div_pow2 by lia.
    rewrite Z.shiftr_lor, Z.shiftr_shiftl_l by lia. change (4 - 4) with 0.
    rewrite Z.shiftl_0_r, Z.shiftr_div_pow2 by lia. change (2 ^ 4) with 16.
    rewrite (Z.div_small r) by lia. apply Z.lor_0_r. }
  assert (Mo : Z.lor (Z.shiftl high 4) r mod 16 = r).
  { change 16 with (2 ^ 4). rewrite <- Z.land_ones by lia.
    rewrite Z.land_lor_distr_l, !Z.land_ones by lia.
    rewrite Z.shiftl_mul_pow2 by lia. rewrite Z.mod_mul by lia.
    change (2 ^ 4) with 16. rewrite (Z.mod_small r) by lia. apply Z.lor_0_l. }
  pose proof (Z.div_mod (Z.lor (Z.shiftl high 4) r) 16 ltac:(lia)) as E.
  rewrite D, Mo in E. exact E.
Qed.

(** X8. Whenever the two-register read returns, it has left the globals
    alone and its result is a 12-bit number that holds the whole high
    register in its upper 8 bits and the low nibble of the low register in
    its lower 4 bits; the high nibble of the low register has no
    influence. *)
Theorem read_multi_value_12bit
    (b : bus) (highaddress lowaddress : Z) (g g' : globals) (t : list event) (value : Z) :
  read_multi_value b highaddress lowaddress g = (t, Ret value g') ->
  g' = g /\
  0 <= value < 4096 /\
  exists high low,
    b highaddress = Byte high /\ b lowaddress = Byte low /\
    value / 16 = byte_val high /\
    value mod 16 = byte_val low mod 16.
Proof.
  intros E.
  assert (W : wp (read_multi_value b highaddress lowaddress) bus_event
                 (fun v g1 =>
                    g1 = g /\ 0 <= v < 4096 /\
                    exists high low,
                      b highaddress = Byte high /\ b lowaddress = Byte low /\
                      v / 16 = byte_val high /\ v mod 16 = byte_val low mod 16) g).
  { apply wp_read_multi_value; [auto|]. intros x y Hx Hy.
    pose proof (byte_val_range x) as Rx. pose proof (byte_val_range y) as Ry.
    rewrite !u16_byte_val, reassembly_parts by assumption.
    pose proof (Z.mod_pos_bound (byte_val y) 16 ltac:(lia)) as M.
    unfold u16. rewrite Z.mod_small by lia.
    split; [reflexivity|]. split; [lia|]. exists x, y.
    split; [exact Hx|]. split; [exact Hy|]. split.
    - symmetry. apply (Z.div_unique_pos _ _ _ (byte_val y mod 16)); lia.
    - symmetry. apply (Z.mod_unique_pos _ _ (byte_val x)); lia. }
  exact (proj2 (wp_returned _ _ _ _ _ _ _ W E)).
Qed.

Lemma read_multi_value_12bit_witness :
  303 / 16 = byte_val x12 /\ 303 mod 16 = byte_val x3f mod 16.
Proof.
  destruct (read_multi_value_12bit demo_bus 0x5E 0x5F initial_globals initial_globals
              [BusWrite [0x5E]; BusRead; BusWrite [0x5F]; BusRead] 303 eq_refl)
    as (_ & _ & high & low & Hh & Hl & Hd & Hm).
  injection Hh as <-. injection Hl as <-. split; [exact Hd | exact Hm].
Defined.

(** ** Failures of start-up *)

(** X9. When the argument is accepted but the bus cannot be acquired, the
    process gives up without a single register transfer: if [open] fails it
    prints its diagnostic and ends with status 1 without calling [ioctl];
    if [ioctl] fails it prints the AXP209 diagnostic and ends with status 1
    without querying a register.  Nothing reaches stdout in either case. *)
Theorem bus_acquisition_errors
    (e : env) (argv : list string) (n : nat) (g1 : globals) :
  parse_arguments argv initial_globals = ([], Ret tt g1) ->
  (open_result e < 0 ->
   run e argv n =
     ([SysOpen "/dev/i2c-0";
       Eprintf ("Unable to open a handle to the I2C bus" ++ Libc.nl)], Exit 1)) /\
  (0 <= open_result e -> ioctl_result e < 0 ->
   run e argv n =
     ([SysOpen "/dev/i2c-0"; SysIoctl 0x34;
       Eprintf ("Unable to communicate with AXP209" ++ Libc.nl)], Exit 1)).
Proof.
  intros Hparse.
  assert (Hstart : forall r,
             (fd <- get gI2c;;
              if fd <? 0 then
                emit (Eprintf ("Unable to open a handle to the I2C bus" ++ Libc.nl));; exit 1
              else
                err <- enable_adc e;;
                if err <? 0 then
                  emit (Eprintf ("Unable to communicate with AXP209" ++ Libc.nl));; exit 1
                else print_charts_preamble) (set_gI2c (open_result e) g1) = r ->
             run e argv n =
               ((SysOpen "/dev/i2c-0" :: fst r)%list,
                match snd r with
                | Ret _ g2 => snd (main_loop e n 0 0 g2)
                | Exit status => Exit status
                end) \/ exists g2, snd r = Ret tt g2).
  { intros r Hr. destruct r as [t [[] g2|status]].
    - right. exists g2. reflexivity.
    - left. unfold run, main, startup.
      rewrite (bind_exits _ _ _ (SysOpen "/dev/i2c-0" :: t) status); [reflexivity|].
      rewrite (bind_returns _ _ _ _ _ _ Hparse).
      rewrite (bind_returns _ _ _ _ _ _ (emit_run _ _)).
      rewrite (bind_returns _ _ _ _ _ _ (put_run _ _)).
      rewrite Hr. reflexivity. }
  split.
  - intros Hopen.
    destruct (Hstart _ eq_refl) as [H|[g2 H]].
    + rewrite H. rewrite (bind_returns _ _ _ _ _ _ (get_run _ _)).
      cbn [gI2c set_gI2c]. destruct (Z.ltb_spec (open_result e) 0) as [_|?]; [|lia].
      reflexivity.
    + exfalso. rewrite (bind_returns _ _ _ _ _ _ (get_run _ _)) in H.
      cbn [gI2c set_gI2c] in H. destruct (Z.ltb_spec (open_result e) 0) as [_|?]; [|lia].
      discriminate H.
  - intros Hopen Hioctl.
    assert (Eadc : forall g, enable_adc e g = ([SysIoctl 0x34], Ret (ioctl_result e) g)).
    { intros g. unfold enable_adc.
      rewrite (bind_returns _ _ _ _ _ _ (emit_run _ _)). cbv zeta.
      destruct (Z.ltb_spec (ioctl_result e) 0) as [_|?]; [|lia]. reflexivity. }
    destruct (Hstart _ eq_refl) as [H|[g2 H]].
    + rewrite H. rewrite (bind_returns _ _ _ _ _ _ (get_run _ _)).
      cbn [gI2c set_gI2c]. destruct (Z.ltb_spec (open_result e) 0) as [?|_]; [lia|].
      rewrite (bind_returns _ _ _ _ _ _ (Eadc _)).
      destruct (Z.ltb_spec (ioctl_result e) 0) as [_|?]; [|lia]. reflexivity.
    + exfalso. rewrite (bind_returns _ _ _ _ _ _ (get_run _ _)) in H.
      cbn [gI2c set_gI2c] in H. destruct (Z.ltb_spec (open_result e) 0) as [?|_]; [lia|].
      rewrite (bind_returns _ _ _ _ _ _ (Eadc _)) in H.
      destruct (Z.ltb_spec (ioctl_result e) 0) as [_|?]; [|lia]. discriminate H.
Qed.

Lemma bus_acquisition_errors_witness :
  run no_bus_env ["chip.plugin"] 3 =
    ([SysOpen "/dev/i2c-0";
      Eprintf ("Unable to open a handle to the I2C bus" ++ Libc.nl)], Exit 1) /\
  run no_device_env ["chip.plugin"; "5"] 3 =
    ([SysOpen "/dev/i2c-0"; SysIoctl 0x34;
      Eprintf ("Unable to communicate with AXP209" ++ Libc.nl)], Exit 1).
Proof.
  split.
  - apply (proj1 (bus_acquisition_errors no_bus_env ["chip.plugin"] 3 _ eq_refl)).
    reflexivity.
  - apply (proj2 (bus_acquisition_errors no_device_env ["chip.plugin"; "5"] 3 _ eq_refl)).
    + discriminate.
    + reflexivity.
Defined.

(** ** The interval and the sleep *)

Lemma parse_arguments_interval (argv : list string) (g g1 : globals) (t : list event) :
  parse_arguments argv g = (t, Ret tt g1) ->
  g1 = set_gUpdateEvery (gUpdateEvery g1) g /\ 1 <= gUpdateEvery g1 <= 360.
Proof.
  rewrite parse_arguments_run. intros E.
  destruct argv as [|argv0 [|argv1 rest]];
    try (injection E as _ <-; split; [reflexivity | cbn; lia]).
  destruct (Z.ltb_spec (u16 (Libc.atoi argv1)) 1) as [?|H1]; [discriminate E|].
  destruct (Z.ltb_spec 360 (u16 (Libc.atoi argv1))) as [?|H2]; [discriminate E|].
  cbn [orb] in E. injection E as _ <-. split; [reflexivity | cbn; lia].
Qed.

Lemma main_loop_keeps_interval (e : env) (n : nat) :
  forall (i : nat) (endtimeus : Z) (g : globals),
    wp (main_loop e n i endtimeus) (fun _ => True)
       (fun _ g' => gUpdateEvery g' = gUpdateEvery g) g.
Proof.
  induction n as [|n IH]; intros i endtimeus g; cbn [main_loop].
  - apply wp_ret. reflexivity.
  - cbv zeta. apply wp_bind.
    apply (wp_weaken _ _ (fun _ g1 => gUpdateEvery g1 = gUpdateEvery g)).
    + intros _ g1 Hg1. apply wp_bind, wp_any_event.
      rewrite print_chart_data_run. cbn [snd].
      apply wp_bind, wp_get, wp_bind, wp_emit; [exact I|].
      rewrite <- Hg1. apply IH.
    + apply (wp_events_weaken _ bus_event); [intros; exact I|].
      eapply wp_weaken; [|apply gather_chart_data_samples].
      intros _ g1 (cc & th & tl & vi & _ & _ & _ & _ & _ & H & _). exact H.
Qed.

(** X10. The interval in force is always one of 1..360 seconds, and the
    loop compensates for its own latency: in a run whose [n] iterations have
    completed, none of them taking longer than the interval, the loop calls
    [usleep] exactly once per iteration, with the interval minus the time
    the iteration took, so that sleep and processing add up to the
    interval.  (Before the loop, start-up may have slept for the ADC.) *)
Theorem sleep_compensates_latency
    (e : env) (argv : list string) (n : nat) (g : globals) :
  snd (run e argv n) = Ret tt g ->
  (forall i, (i < n)%nat ->
     cycle_start_us e i <= cycle_end_us e i <= cycle_start_us e i + gUpdateEvery g * 1000000) ->
  1 <= gUpdateEvery g <= 360 /\
  sleeps (fst (run e argv n)) =
    (sleeps (fst (startup e argv initial_globals))
     ++ map (fun i => gUpdateEvery g * 1000000 - (cycle_end_us e i - cycle_start_us e i))
            (seq 0 n))%list.
Proof.
  intros Hrun Hfast. unfold run, main in *.
  destruct (startup e argv initial_globals) as [t0 [[] g1|status]] eqn:Estart.
  2:{ rewrite (bind_exits _ _ _ _ _ Estart) in Hrun. discriminate Hrun. }
  rewrite (bind_returns _ _ _ _ _ _ Estart) in *. cbn [fst snd] in *.
  assert (Hint : 1 <= gUpdateEvery g1 <= 360).
  { destruct (startup_run e argv initial_globals) as [(t & E & _)|(t & every & Ep & E & _)].
    - rewrite E in Estart. discriminate Estart.
    - rewrite E in Estart. injection Estart as _ <-.
      apply parse_arguments_interval in Ep. cbn in *. lia. }
  assert (Hsame : gUpdateEvery g = gUpdateEvery g1).
  { pose proof (main_loop_keeps_interval e n 0 0 g1) as [_ W].
    rewrite Hrun in W. exact W. }
  destruct (main_loop_trace e n 0 g1) as (states & _ & _ & _ & Hs & Hret).
  change (previous_end_us e 0) with 0 in *.
  rewrite (Hret _ Hrun) in Hs.
  split; [lia|]. rewrite sleeps_app, Hs, Hsame. f_equal.
  apply map_ext_in. intros i Hi. apply in_seq in Hi.
  specialize (Hfast i ltac:(lia)). rewrite Hsame in Hfast.
  pose proof (timespec_us_range (clock e (2 * i))) as R1.
  pose proof (timespec_us_range (clock e (2 * i + 1))) as R2.
  unfold sleep_us, processing_us, u64.
  unfold cycle_start_us, cycle_end_us in *.
  set (s := timespec_us (clock e (2 * i))) in *.
  set (f := timespec_us (clock e (2 * i + 1))) in *.
  change (2 ^ 64) with 18446744073709551616 in *.
  rewrite (Z.mod_small (f - s)) by lia. apply Z.mod_small. lia.
Qed.

Lemma sleep_compensates_latency_witness :
  sleeps (fst (run demo_env ["chip.plugin"] 2)) = [800000; 700000].
Proof.
  assert (Hfast : forall i, (i < 2)%nat ->
            cycle_start_us demo_env i <= cycle_end_us demo_env i
              <= cycle_start_us demo_env i + gUpdateEvery demo_final * 1000000).
  { intros [|[|i]] Hi; [vm_compute; split; discriminate .. | exfalso; lia]. }
  exact (proj2 (sleep_compensates_latency demo_env ["chip.plugin"] 2 demo_final
                  (demo_run 2 ltac:(lia)) Hfast)).
Defined.

(** ** Diagnostics *)

Section Diagnosed.
Variable P : string -> Prop.

Lemma diagnosed_bind {A B : Type} (m : M A) (k : A -> M B) (g : globals) :
  diagnosed P (m g) -> (forall a g', diagnosed P (k a g')) -> diagnosed P (bind m k g).
Proof.
  unfold bind. destruct (m g) as [t [a g'|status]]; cbn [diagnosed]; [|auto].
  intros Ht Hk. specialize (Hk a g'). destruct (k a g') as [t' [b g''|status]]; cbn [diagnosed] in *.
  - apply Forall_app. split; assumption.
  - destruct Hk as (Hs & t0 & msg & -> & HP & Ht0). split; [exact Hs|].
    exists (t ++ t0)%list, msg. split; [apply app_assoc|]. split; [exact HP|].
    apply Forall_app. split; assumption.
Qed.

Lemma diagnosed_ret {A : Type} (a : A) (g : globals) : diagnosed P (ret a g).
Proof. constructor. Qed.

Lemma diagnosed_put (f : globals -> globals) (g : globals) : diagnosed P (put f g).
Proof. constructor. Qed.

Lemma diagnosed_get {A : Type} (f : globals -> A) (g : globals) : diagnosed P (get f g).
Proof. constructor. Qed.

Lemma diagnosed_emit (ev : event) (g : globals) :
  not_diagnostic ev -> diagnosed P (emit ev g).
Proof. intros H. repeat constructor. exact H. Qed.

(** The only way the program ends itself: a diagnostic, then [exit(1)]. *)
Lemma diagnosed_fail {A : Type} (msg : string) (g : globals) :
  P msg -> diagnosed P ((emit (Eprintf msg);; exit 1 : M A) g).
Proof.
  intros H. cbn. split; [reflexivity|]. exists [], msg. repeat split; [exact H | constructor].
Qed.

Lemma diagnosed_save_data_float (index : Dimensions) (value : spec_float) (g : globals) :
  diagnosed P (save_data_float index value g).
Proof. constructor. Qed.

Lemma diagnosed_save_data_uint8 (index : Dimensions) (value : Z) (g : globals) :
  diagnosed P (save_data_uint8 index value g).
Proof. constructor. Qed.

Lemma diagnosed_save_data_uint16 (index : Dimensions) (value : Z) (g : globals) :
  diagnosed P (save_data_uint16 index value g).
Proof. constructor. Qed.

Lemma diagnosed_output {A : Type} (t : list event) (a : A) (g : globals) :
  output t = t -> diagnosed P (t, Ret a g).
Proof.
  intros H. cbn. rewrite <- H. unfold output. apply Forall_forall.
  intros ev Hin. apply filter_In in Hin. destruct Hin as [_ Hout].
  destruct ev; first [exact I | discriminate Hout].
Qed.
End Diagnosed.

Lemma diagnosed_weaken {A : Type} (P P' : string -> Prop) (r : list event * outcome A) :
  (forall msg, P msg -> P' msg) -> diagnosed P r -> diagnosed P' r.
Proof.
  intros H. destruct r as [t [a g|status]]; cbn; [auto|].
  intros (Hs & t0 & msg & E & HP & Ht0). split; [exact Hs|].
  exists t0, msg. auto.
Qed.

Lemma diagnosed_read_register_value (b : bus) (address : Z) (g : globals) :
  diagnosed (bus_failure_message b) (read_register_value b address g).
Proof.
  unfold read_register_value.
  apply diagnosed_bind; [apply diagnosed_emit; exact I | intros _ g1].
  destruct (b address) as [x| |] eqn:E.
  - apply diagnosed_bind; [apply diagnosed_emit; exact I | intros; apply diagnosed_ret].
  - apply diagnosed_fail. exists address. left. split; [exact E | reflexivity].
  - apply diagnosed_bind; [apply diagnosed_emit; exact I | intros _ g2].
    apply diagnosed_fail. exists address. right. split; [exact E | reflexivity].
Qed.

Lemma diagnosed_read_multi_value (b : bus) (highaddress lowaddress : Z) (g : globals) :
  diagnosed (bus_failure_message b) (read_multi_value b highaddress lowaddress g).
Proof.
  unfold read_multi_value.
  apply diagnosed_bind; [apply diagnosed_read_register_value | intros ? ?].
  apply diagnosed_bind; [apply diagnosed_read_register_value | intros ? ?].
  apply diagnosed_ret.
Qed.

Ltac diagnosed_step :=
  cbv beta zeta;
  lazymatch goal with
  | |- diagnosed _ (bind _ _ _) => apply diagnosed_bind; [|intros ? ?]
  | |- diagnosed _ (put _ _) => apply diagnosed_put
  | |- diagnosed _ (ret _ _) => apply diagnosed_ret
  | |- diagnosed _ (read_register_value _ _ _) => apply diagnosed_read_register_value
  | |- diagnosed _ (read_multi_value _ _ _ _) => apply diagnosed_read_multi_value
  | |- diagnosed _ (save_data_float _ _ _) => apply diagnosed_save_data_float
  | |- diagnosed _ (save_data_uint8 _ _ _) => apply diagnosed_save_data_uint8
  | |- diagnosed _ (save_data_uint16 _ _ _) => apply diagnosed_save_data_uint16
  | |- diagnosed _ ((if ?c then _ else _) _) => destruct c
  end.

(** X11. A cycle reports its failure truthfully.  If the cycle returns, it
    has printed no diagnostic; if it ends the process, the status is 1 and
    the last thing it did was to print the one diagnostic of the cycle,
    which names a register whose query or read did fail on the bus. *)
Theorem bus_failure_diagnosed (b : bus) (g : globals) :
  diagnosed (bus_failure_message b) (gather_chart_data b g).
Proof. unfold gather_chart_data. repeat diagnosed_step. Qed.

Lemma bus_failure_cycle (b : bus) (g : globals) :
  diagnosed (bus_failure_message b) (gather_chart_data b g).
Proof. unfold gather_chart_data. repeat diagnosed_step. Qed.

Lemma diagnosed_enable_adc (e : env) (argv : list string) (g : globals) :
  diagnosed (run_failure_message e argv) (enable_adc e g).
Proof.
  assert (Hr : forall address g0,
             diagnosed (run_failure_message e argv)
                       (read_register_value (adc_bus e) address g0)).
  { intros address g0.
    apply (diagnosed_weaken (bus_failure_message (adc_bus e)));
      [|apply diagnosed_read_register_value].
    intros msg H. right. right. right. left. exact H. }
  assert (Hw : forall address value g0,
             diagnosed (run_failure_message e argv)
                       (write_register_value e address value g0)).
  { intros address value g0. unfold write_register_value.
    apply diagnosed_bind; [apply diagnosed_emit; exact I | intros _ g1].
    destruct (adc_write_ok e address) eqn:E; [apply diagnosed_ret|].
    apply diagnosed_fail. right. right. right. right. left.
    exists address. split; [exact E | reflexivity]. }
  unfold enable_adc.
  apply diagnosed_bind; [apply diagnosed_emit; exact I | intros _ g1]. cbv zeta.
  destruct (ioctl_result e <? 0); [apply diagnosed_ret|].
  apply diagnosed_bind; [apply Hr | intros v1 g2]. cbv zeta.
  apply diagnosed_bind.
  { destruct (negb _); [|apply diagnosed_ret].
    apply diagnosed_bind; [apply Hw | intros; apply diagnosed_ret]. }
  intros wait g3.
  apply diagnosed_bind; [apply Hr | intros v2 g4]. cbv zeta.
  apply diagnosed_bind.
  { destruct (negb _); [|apply diagnosed_ret].
    apply diagnosed_bind; [apply Hw | intros; apply diagnosed_ret]. }
  intros wait' g5.
  apply diagnosed_bind; [|intros; apply diagnosed_ret].
  destruct wait'; [apply diagnosed_emit; exact I | apply diagnosed_ret].
Qed.

Lemma diagnosed_parse_arguments (e : env) (argv : list string) (g : globals) :
  diagnosed (run_failure_message e argv) (parse_arguments argv g).
Proof.
  rewrite parse_arguments_run.
  destruct argv as [|argv0 [|argv1 rest]]; try (constructor; fail).
  destruct (Z.ltb_spec (u16 (Libc.atoi argv1)) 1) as [H1|H1];
    [|destruct (Z.ltb_spec 360 (u16 (Libc.atoi argv1))) as [H2|H2]];
    cbn [orb diagnosed]; try (constructor; fail);
    (split; [reflexivity|]; exists [], (usage argv0);
     split; [reflexivity|]; split; [|constructor];
     left; exists argv0, argv1, rest; split; [reflexivity|]; split; [reflexivity|]; lia).
Qed.

Lemma diagnosed_bind_returned {A B : Type} (P : string -> Prop)
    (m : M A) (k : A -> M B) (g : globals) :
  diagnosed P (m g) ->
  (forall t a g', m g = (t, Ret a g') -> diagnosed P (k a g')) ->
  diagnosed P (bind m k g).
Proof.
  unfold bind. destruct (m g) as [t [a g'|status]]; cbn [diagnosed]; [|auto].
  intros Ht Hk. specialize (Hk t a g' eq_refl).
  destruct (k a g') as [t' [b g''|status]]; cbn [diagnosed] in *.
  - apply Forall_app. split; assumption.
  - destruct Hk as (Hs & t0 & msg & -> & HP & Ht0). split; [exact Hs|].
    exists (t ++ t0)%list, msg. split; [apply app_assoc|]. split; [exact HP|].
    apply Forall_app. split; assumption.
Qed.

(** What [enable_adc] returns: 0, or the negative result of [ioctl]. *)
Lemma enable_adc_result (e : env) (g : globals) :
  wp (enable_adc e) (fun _ => True)
     (fun err _ => err = 0 \/ (err = ioctl_result e /\ err < 0)) g.
Proof.
  unfold enable_adc. apply wp_bind, wp_emit; [exact I|]. cbv zeta.
  destruct (Z.ltb_spec (ioctl_result e) 0) as [Hneg|Hpos].
  { apply wp_ret. right. split; [reflexivity | exact Hneg]. }
  assert (Hw : forall address value (Q : unit -> globals -> Prop) g0,
             Q tt g0 -> wp (write_register_value e address value) (fun _ => True) Q g0).
  { intros address value Q g0 HQ. unfold write_register_value.
    apply wp_bind, wp_emit; [exact I|].
    destruct (adc_write_ok e address); [apply wp_ret, HQ|].
    apply wp_bind, wp_emit; [exact I|]. apply wp_exit. }
  apply wp_bind, (wp_read_register_value _ (fun _ _ => I)). intros v1 _. cbv zeta.
  apply wp_bind, (wp_weaken _ _ (fun _ _ => True)).
  - intros wait g1 _.
    apply wp_bind, (wp_read_register_value _ (fun _ _ => I)). intros v2 _. cbv zeta.
    apply wp_bind, (wp_weaken _ _ (fun _ _ => True)).
    + intros wait' g2 _. apply wp_bind, (wp_weaken _ _ (fun _ _ => True)).
      * intros _ g3 _. apply wp_ret. left. reflexivity.
      * destruct wait'; [apply wp_emit; exact I | apply wp_ret; exact I].
    + destruct (negb _); [|apply wp_ret; exact I].
      apply wp_bind, Hw, wp_ret. exact I.
  - destruct (negb _); [|apply wp_ret; exact I].
    apply wp_bind, Hw, wp_ret. exact I.
Qed.

Lemma diagnosed_startup (e : env) (argv : list string) (g : globals) :
  diagnosed (run_failure_message e argv) (startup e argv g).
Proof.
  unfold startup.
  apply diagnosed_bind; [apply diagnosed_parse_arguments | intros _ g1].
  apply diagnosed_bind; [apply diagnosed_emit; exact I | intros _ g2].
  apply diagnosed_bind_returned; [apply diagnosed_put | intros t [] g3 E].
  rewrite put_run in E. injection E as _ <-. clear t.
  apply diagnosed_bind_returned; [apply diagnosed_get | intros t fd g4 E].
  rewrite get_run in E. injection E as _ <- <-. clear t. cbn [gI2c set_gI2c].
  destruct (Z.ltb_spec (open_result e) 0) as [Hopen|_].
  { apply diagnosed_fail. right. left. split; [exact Hopen | reflexivity]. }
  apply diagnosed_bind_returned; [apply diagnosed_enable_adc | intros t err g5 E].
  destruct (proj2 (wp_returned _ _ _ _ _ _ _ (enable_adc_result e _) E)) as [->|[-> Herr]].
  - change (0 <? 0) with false. cbv iota. rewrite print_charts_preamble_run.
    apply diagnosed_output. reflexivity.
  - destruct (Z.ltb_spec (ioctl_result e) 0) as [_|?]; [|lia].
    apply diagnosed_fail. right. right. left. split; [exact Herr | reflexivity].
Qed.

Lemma diagnosed_main_loop (e : env) (argv : list string) (n : nat) :
  forall (i : nat) (endtimeus : Z) (g : globals),
    diagnosed (run_failure_message e argv) (main_loop e n i endtimeus g).
Proof.
  induction n as [|n IH]; intros i endtimeus g; cbn [main_loop].
  - apply diagnosed_ret.
  - cbv zeta. apply diagnosed_bind.
    + apply (diagnosed_weaken (bus_failure_message (cycle_bus e i)));
        [|apply bus_failure_cycle].
      intros msg H. do 5 right. exists i. exact H.
    + intros _ g1. apply diagnosed_bind.
      * rewrite print_chart_data_run. apply diagnosed_output, output_frame_events.
      * intros _ g2. apply diagnosed_bind; [apply diagnosed_get | intros every g3].
        apply diagnosed_bind; [apply diagnosed_emit; exact I | intros _ g4]. apply IH.
Qed.

(** X12. Every way the process ends is reported, and reported truthfully.
    While a run goes on it has printed no diagnostic.  When it ends, its
    status is 1 and the last thing it did was to print its one diagnostic:
    the usage message for an interval outside 1..360, the bus message when
    [open] failed, the AXP209 message when [ioctl] failed, or the message
    naming a register whose query, read or write did fail (during start-up
    or in some cycle). *)
Theorem every_exit_is_diagnosed (e : env) (argv : list string) (n : nat) :
  diagnosed (run_failure_message e argv) (run e argv n).
Proof.
  unfold run, main.
  apply diagnosed_bind; [apply diagnosed_startup | intros _ g].
  apply diagnosed_main_loop.
Qed.

(** *** The rendering buffer *)

Lemma all_from_spec (count : nat) (check : Z -> bool) :
  forall start, all_from count start check = true ->
  forall z, start <= z < start + Z.of_nat count -> check z = true.
Proof.
  induction count as [|k IH]; intros start H z Hz; [lia|].
  cbn [all_from] in H. apply andb_true_iff in H. destruct H as [H0 H].
  destruct (Z.eq_dec z start) as [->|Hne]; [exact H0|].
  apply (IH (start + 1) H). lia.
Qed.

Lemma all_below (bound : Z) (check : Z -> bool) :
  all_from (Z.to_nat bound) 0 check = true ->
  forall z, 0 <= z < bound -> check z = true.
Proof. intros H z Hz. apply (all_from_spec _ _ 0 H). lia. Qed.

(** A 16-bit value has at most five decimal digits. *)
Lemma fmt_u_length (n : Z) :
  0 <= n < 2 ^ 16 -> (String.length (Libc.fmt_u n) <= 5)%nat.
Proof.
  intros Hn. apply Nat.leb_le.
  apply (all_below (2 ^ 16) (fun z => (String.length (Libc.fmt_u z) <=? 5)%nat)); [|exact Hn].
  vm_compute. reflexivity.
Qed.

(** The integer dimensions render to at most five characters, whatever
    their cell holds. *)
Lemma integer_rendering_fits (index : Dimensions) (cell : value_t) :
  dim_DataType (dimension_definition index) <> Float ->
  (String.length (render_cell index cell) <= 5)%nat.
Proof.
  intros H. unfold render_cell.
  destruct (dim_DataType (dimension_definition index));
    destruct (dim_DataFormat (dimension_definition index));
    try (cbn; lia); try contradiction; apply fmt_u_length.
  - unfold asUint8. pose proof (Z.mod_pos_bound cell (2 ^ 8) ltac:(lia)). lia.
  - unfold asUint16. apply Z.mod_pos_bound. lia.
Qed.

Lemma format_data_value_render (index : Dimensions) (g : globals) :
  format_data_value index g =
    match sample index g with
    | None => EmptyString
    | Some cell => render_cell index cell
    end.
Proof. apply format_data_value_sample. Qed.

(** The store after the reset at the head of a cycle. *)
Lemma fit_reset (bound : nat) (g : globals) :
  renderings_fit bound (set_gIsValid 0 (set_gData (repeat 0 (dim_index MaxDimensions)) g)).
Proof.
  split; [apply repeat_length|]. intros index _.
  unfold format_data_value. cbn [gIsValid set_gIsValid]. rewrite Z.land_0_l.
  cbn. lia.
Qed.

(** A save keeps the bound when what it stores renders within it. *)
Lemma fit_save (bound : nat) (index : Dimensions) (f : value_t -> value_t) (g : globals) :
  renderings_fit bound g ->
  index <> MaxDimensions ->
  (forall cell, (String.length (render_cell index (f cell)) <= bound)%nat) ->
  renderings_fit bound (mark_valid index (store_cell index f g)).
Proof.
  intros [Hlen Hfit] Hreal Hf. split.
  - cbn [mark_valid store_cell gData set_gData set_gIsValid].
    rewrite length_update_nth. exact Hlen.
  - intros other Hother. rewrite format_data_value_render.
    destruct (Nat.eq_dec (dim_index other) (dim_index index)) as [E|Hne].
    + apply dim_index_inj in E. subst other. unfold sample.
      rewrite is_valid_mark_valid, Dimensions_eqb_refl, orb_true_r.
      cbn [mark_valid store_cell gData set_gData set_gIsValid].
      rewrite nth_update_nth_same; [apply Hf|].
      rewrite Hlen. destruct index; cbn; try lia. contradiction.
    + rewrite sample_not_stored by congruence.
      rewrite <- format_data_value_render. apply Hfit, Hother.
Qed.

(** The value two registers give lies in 12 bits. *)
Lemma wp_read_multi_value_range (b : bus) (highaddress lowaddress : Z)
    (Q : Z -> globals -> Prop) (g : globals) :
  (forall raw, 0 <= raw < 4096 -> Q raw g) ->
  wp (read_multi_value b highaddress lowaddress) bus_event Q g.
Proof.
  intros H. apply wp_read_multi_value; [auto|]. intros x y _ _. apply H.
  rewrite !u16_byte_val.
  pose proof (byte_val_range x). pose proof (byte_val_range y).
  rewrite reassembly_parts by lia.
  pose proof (Z.mod_pos_bound (byte_val y) 16 ltac:(lia)).
  unfold u16. rewrite Z.mod_small; lia.
Qed.

(** Sequencing through a property [I] of the globals. *)
Lemma wp_bind_inv {A B : Type} (I : globals -> Prop) (T : event -> Prop)
    (m : M A) (k : A -> M B) (Q : B -> globals -> Prop) (g : globals) :
  wp m T (fun _ g' => I g') g ->
  (forall a g', I g' -> wp (k a) T Q g') ->
  wp (bind m k) T Q g.
Proof.
  intros Hm Hk. apply wp_bind. revert Hm. apply wp_weaken. exact Hk.
Qed.

Ltac integer_fits :=
  let cell := fresh "cell" in
  intros cell; apply Nat.le_trans with 5%nat;
  [apply integer_rendering_fits; let E := fresh in intros E; vm_compute in E; discriminate E
  |repeat constructor].

Ltac float_fits :=
  let cell := fresh "cell" in
  intros cell; unfold set_asFloat; clear cell; apply Nat.leb_le;
  match goal with
  | H : 0 <= ?raw < 4096 |- ?G =>
      match G with context [raw] => revert raw H end
  end;
  apply all_below; vm_compute; reflexivity.

Ltac fit_save_step rule :=
  apply rule, fit_save; [assumption | discriminate | first [integer_fits | float_fits]].

Ltac fit_step :=
  cbv beta zeta;
  lazymatch goal with
  | |- wp (bind (read_register_value _ _) _) _ _ _ =>
      apply wp_bind, wp_read_register_value; [solve [auto] | intros ? _]
  | |- wp (bind (read_multi_value _ _ _) _) _ _ _ =>
      apply wp_bind, wp_read_multi_value_range; intros ? ?
  | |- wp (bind _ _) _ _ _ =>
      apply (wp_bind_inv (renderings_fit 8)); [|intros [] ? ?]
  | |- wp (ret _) _ _ _ => apply wp_ret; assumption
  | |- wp (if ?c then _ else _) _ _ _ => destruct c
  | |- wp (save_data_float _ _) _ _ _ => fit_save_step wp_save_data_float
  | |- wp (save_data_uint8 _ _) _ _ _ => fit_save_step wp_save_data_uint8
  | |- wp (save_data_uint16 _ _) _ _ _ => fit_save_step wp_save_data_uint16
  end.

(** Every cycle leaves a store whose renderings take at most eight
    characters. *)
Lemma gather_chart_data_fits (b : bus) (g : globals) :
  wp (gather_chart_data b) bus_event (fun _ g' => renderings_fit 8 g') g.
Proof.
  unfold gather_chart_data.
  apply wp_bind, wp_put, wp_bind, wp_put.
  generalize (fit_reset 8 g).
  generalize (set_gIsValid 0 (set_gData (repeat 0 (dim_index MaxDimensions)) g)).
  intros g0 H0.
  repeat fit_step.
Qed.

(** X13. No rendering overruns the buffer.  After a cycle that returned,
    [format_data_value] leaves at most eight characters in [buffer] for any
    dimension, valid or not: nine bytes with the terminator, of the 32 that
    [print_chart_data] provides.  The bound is owed to the decoder, which
    stores in the [float] dimensions only what 12-bit register pairs give;
    it holds for [vbusvoltagelimit] too, whose [float] is read back through
    the 16-bit member. *)
Theorem renderings_fit_buffer
    (b : bus) (g g' : globals) (t : list event) (index : Dimensions) :
  gather_chart_data b g = (t, Ret tt g') ->
  index <> MaxDimensions ->
  (String.length (format_data_value index g') <= 8 < 32)%nat.
Proof.
  intros E Hreal.
  destruct (proj2 (wp_returned _ _ _ _ _ _ _ (gather_chart_data_fits b g) E)) as [_ Hfit].
  split; [apply Hfit, Hreal | repeat constructor].
Qed.

Lemma renderings_fit_buffer_witness :
  (String.length (format_data_value acincurrent demo_samples) <= 8 < 32)%nat.
Proof.
  apply (renderings_fit_buffer demo_bus initial_globals demo_samples _ acincurrent demo_cycle).
  discriminate.
Defined.

(** The bound is not one of [format_data_value] alone: on a store holding
    the largest [float] it would write 41 characters and the terminator. *)
Example wide_sample_overruns :
  globals_typed wide_sample /\
  String.length (format_data_value internaltemp wide_sample) = 41%nat.
Proof.
  split; [apply globals_typed_check|]; vm_compute; reflexivity.
Qed.

(** *** Flushing *)

Lemma scan_app (t1 t2 : list event) :
  forall buffered,
    scan buffered (t1 ++ t2) =
      match scan buffered t1 with
      | Some buffered' => scan buffered' t2
      | None => None
      end.
Proof.
  induction t1 as [|ev t1 IH]; intros buffered; [reflexivity|].
  destruct ev; cbn [scan app]; try apply IH; destruct buffered; try reflexivity; apply IH.
Qed.

Lemma tidy_bind {A B : Type} (m : M A) (k : A -> M B) (g : globals) :
  tidy (m g) -> (forall a g', tidy (k a g')) -> tidy (bind m k g).
Proof.
  unfold tidy, bind. intros Hm Hk.
  destruct (m g) as [t [a g'|status]]; [|exact Hm].
  specialize (Hk a g'). destruct (k a g') as [t' o]. cbn [fst] in *.
  rewrite scan_app, Hm. exact Hk.
Qed.

Lemma scan_silent (t : list event) : Forall silent_event t -> scan false t = Some false.
Proof.
  induction 1 as [|ev t Hev _ IH]; [reflexivity|].
  destruct ev; first [discriminate Hev | exact IH].
Qed.

Lemma tidy_silent {A : Type} (m : M A) (Q : A -> globals -> Prop) (g : globals) :
  wp m silent_event Q g -> tidy (m g).
Proof. intros [H _]. apply scan_silent, H. Qed.

Lemma tidy_gather_chart_data (b : bus) (g : globals) : tidy (gather_chart_data b g).
Proof.
  apply scan_silent. eapply Forall_impl; [|apply gather_chart_data_bus_events].
  intros [] H; cbn in H; try contradiction; reflexivity.
Qed.

Lemma tidy_startup (e : env) (argv : list string) (g : globals) : tidy (startup e argv g).
Proof.
  unfold startup.
  apply tidy_bind.
  { unfold tidy. rewrite parse_arguments_run. destruct argv as [|argv0 [|argv1 rest]];
      try reflexivity.
    destruct ((u16 (Libc.atoi argv1) <? 1) || (360 <? u16 (Libc.atoi argv1))); reflexivity. }
  intros _ g1. apply tidy_bind; [reflexivity | intros _ g2].
  apply tidy_bind; [reflexivity | intros _ g3].
  apply tidy_bind; [reflexivity | intros fd g4].
  destruct (fd <? 0); [reflexivity|].
  apply tidy_bind; [apply (tidy_silent _ _ _ (enable_adc_silent e g4)) | intros err g5].
  destruct (err <? 0); [reflexivity|].
  unfold tidy. rewrite print_charts_preamble_run. reflexivity.
Qed.

Lemma tidy_main_loop (e : env) (n : nat) :
  forall (i : nat) (endtimeus : Z) (g : globals), tidy (main_loop e n i endtimeus g).
Proof.
  induction n as [|n IH]; intros i endtimeus g; cbn [main_loop]; [reflexivity|].
  cbv zeta. apply tidy_bind; [apply tidy_gather_chart_data | intros _ g1].
  apply tidy_bind.
  { unfold tidy. rewrite print_chart_data_run. reflexivity. }
  intros _ g2. apply tidy_bind; [reflexivity | intros every g3].
  apply tidy_bind; [reflexivity | intros _ g4]. apply IH.
Qed.

(** X14. Nothing waits in the stdout buffer.  In every run, whatever the
    arguments and the device, each burst of [printf] (the preamble, a
    frame) ends in its [fflush] before the process does anything else: it
    never sleeps, talks to the bus, makes a system call or writes a
    diagnostic with text still buffered, and after any number of
    iterations the buffer is empty. *)
Theorem stdout_flushed_before_anything_else (e : env) (argv : list string) (n : nat) :
  scan false (fst (run e argv n)) = Some false.
Proof.
  unfold run, main.
  apply (tidy_bind (startup e argv)); [apply tidy_startup | intros _ g].
  apply tidy_main_loop.
Qed.

(** *** The analogue readings *)

Lemma reassembled_raw12 (x y : byte) :
  u16 (Z.lor (Z.shiftl (u16 (byte_val x)) 4) (Z.land (u16 (byte_val y)) 0xF)) = raw12 x y /\
  0 <= raw12 x y < 4096.
Proof.
  unfold raw12. rewrite !u16_byte_val.
  pose proof (byte_val_range x). pose proof (byte_val_range y).
  rewrite reassembly_parts by lia.
  pose proof (Z.mod_pos_bound (byte_val y) 16 ltac:(lia)).
  unfold u16. rewrite Z.mod_small; lia.
Qed.

(** A rendering checked on every 12-bit value holds of every register
    pair. *)
Lemma rendering_checked (F : Z -> spec_float) (p : nat) (text : Z -> string) :
  all_from (Z.to_nat 4096) 0
    (fun raw => String.eqb (Libc.fmt_f p (asFloat (bits_of_b32 (F raw)))) (text raw)) = true ->
  forall x y : byte,
    Libc.fmt_f p
      (asFloat (bits_of_b32
         (F (u16 (Z.lor (Z.shiftl (u16 (byte_val x)) 4) (Z.land (u16 (byte_val y)) 0xF)))))) =
    text (raw12 x y).
Proof.
  intros H x y. destruct (reassembled_raw12 x y) as [-> Hr].
  apply String.eqb_eq. exact (all_below 4096 _ H _ Hr).
Qed.

Lemma temperature_exact (x y : byte) :
  Libc.fmt_f 1
    (asFloat (bits_of_b32
       (b32_of_b64
          (b64_sub
             (b64_mul
                (b64_of_Z (u16 (Z.lor (Z.shiftl (u16 (byte_val x)) 4)
                                      (Z.land (u16 (byte_val y)) 0xF))))
                (b64_lit 18 100))
             (b64_lit 22846 100))))) =
  temperature_text (raw12 x y).
Proof.
  apply (rendering_checked
           (fun raw => b32_of_b64 (b64_sub (b64_mul (b64_of_Z raw) (b64_lit 18 100))
                                           (b64_lit 22846 100)))).
  vm_compute. reflexivity.
Qed.

Lemma halved_exact (x y : byte) :
  Libc.fmt_f 1
    (asFloat (bits_of_b32
       (b32_div
          (b32_of_Z (u16 (Z.lor (Z.shiftl (u16 (byte_val x)) 4)
                                (Z.land (u16 (byte_val y)) 0xF))))
          (b32_of_Z 2)))) =
  Libc.fixed_digits 1 (5 * raw12 x y).
Proof.
  apply (rendering_checked (fun raw => b32_div (b32_of_Z raw) (b32_of_Z 2)) 1
                           (fun raw => Libc.fixed_digits 1 (5 * raw))).
  vm_compute. reflexivity.
Qed.

Lemma scaled_exact (x y : byte) :
  Forall (fun '(p, numerator, denominator, scale) =>
            Libc.fmt_f p
              (asFloat (bits_of_b32
                 (b32_mul
                    (b32_of_Z (u16 (Z.lor (Z.shiftl (u16 (byte_val x)) 4)
                                          (Z.land (u16 (byte_val y)) 0xF))))
                    (b32_lit numerator denominator)))) =
            Libc.fixed_digits p (scale * raw12 x y))
         [(1%nat, 11, 10, 11); (1%nat, 17, 10, 17);
          (3%nat, 625, 1000, 625); (3%nat, 375, 1000, 375)].
Proof.
  repeat constructor;
    match goal with
    | |- Libc.fmt_f ?p (asFloat (bits_of_b32 (b32_mul _ ?c))) = Libc.fixed_digits _ (?scale * _) =>
        apply (rendering_checked (fun raw => b32_mul (b32_of_Z raw) c) p
                                 (fun raw => Libc.fixed_digits p (scale * raw)));
        vm_compute; reflexivity
    end.
Qed.

Ltac reading_exact :=
  lazymatch goal with
  | |- format_data_value batcharge _ = _ => exact (halved_exact _ _)
  | |- format_data_value batvoltage _ = _ => exact (Forall_inv (scaled_exact _ _))
  | |- format_data_value acinvoltage _ = _ =>
      exact (Forall_inv (Forall_inv_tail (scaled_exact _ _)))
  | |- format_data_value vbusvoltage _ = _ =>
      exact (Forall_inv (Forall_inv_tail (scaled_exact _ _)))
  | |- format_data_value acincurrent _ = _ =>
      exact (Forall_inv (Forall_inv_tail (Forall_inv_tail (scaled_exact _ _))))
  | |- format_data_value vbuscurrent _ = _ =>
      exact (Forall_inv (Forall_inv_tail (Forall_inv_tail (Forall_inv_tail (scaled_exact _ _)))))
  end.

(** What a cycle leaves for the readings taken from register pairs. *)
Lemma gather_chart_data_readings (b : bus) (g : globals) :
  wp (gather_chart_data b) bus_event
    (fun _ g' =>
       (exists high low,
           b 0x5E = Byte high /\ b 0x5F = Byte low /\
           format_data_value internaltemp g' = temperature_text (raw12 high low)) /\
       Forall (fun '(index, (highaddress, lowaddress), scale) =>
                 is_valid index g' = true ->
                 exists high low,
                   b highaddress = Byte high /\ b lowaddress = Byte low /\
                   format_data_value index g' =
                     Libc.fixed_digits (precision index) (scale * raw12 high low))
              scaled_readings)
    g.
Proof.
  unfold gather_chart_data.
  repeat wp_step;
    (split;
     [do 2 eexists; split; [eassumption | split; [eassumption | exact (temperature_exact _ _)]]
     |repeat constructor;
      let H := fresh in
      intros H;
      first [ lazy in H; discriminate H
            | do 2 eexists; split; [eassumption | split; [eassumption | reading_exact]] ]]).
Qed.

(** X15. The readings are exact at the printed precision.  After a cycle
    that returned, the text rendered for the internal temperature is
    [raw * 0.18 - 228.46] rounded to the nearest tenth, with [raw] the
    12-bit value of registers 0x5E and 0x5F (values between -0.05 and 0
    print as -0.0); and the text of every valid battery, AC-input and
    bus-input reading is the exact decimal product of its 12-bit register
    value and its constant (0.5, 1.1, 1.7, 0.625, 0.375): neither the
    [float] arithmetic, the trip through the union, nor the promotion to
    [double] in [sprintf] changes a printed digit. *)
Theorem readings_exact (b : bus) (g g' : globals) (t : list event) :
  gather_chart_data b g = (t, Ret tt g') ->
  (exists high low,
      b 0x5E = Byte high /\ b 0x5F = Byte low /\
      format_data_value internaltemp g' = temperature_text (raw12 high low)) /\
  (forall index highaddress lowaddress scale,
      In (index, (highaddress, lowaddress), scale) scaled_readings ->
      is_valid index g' = true ->
      exists high low,
        b highaddress = Byte high /\ b lowaddress = Byte low /\
        format_data_value index g' =
          Libc.fixed_digits (precision index) (scale * raw12 high low)).
Proof.
  intros E.
  destruct (proj2 (wp_returned _ _ _ _ _ _ _ (gather_chart_data_readings b g) E))
    as [Htemp Hall].
  split; [exact Htemp|].
  intros index highaddress lowaddress scale Hin.
  rewrite Forall_forall in Hall. exact (Hall _ Hin).
Qed.

Lemma readings_exact_witness :
  (exists high low,
      demo_bus 0x5E = Byte high /\ demo_bus 0x5F = Byte low /\
      format_data_value internaltemp demo_samples = temperature_text (raw12 high low)) /\
  (forall index highaddress lowaddress scale,
      In (index, (highaddress, lowaddress), scale) scaled_readings ->
      is_valid index demo_samples = true ->
      exists high low,
        demo_bus highaddress = Byte high /\ demo_bus lowaddress = Byte low /\
        format_data_value index demo_samples =
          Libc.fixed_digits (precision index) (scale * raw12 high low)).
Proof.
  exact (readings_exact demo_bus initial_globals demo_samples _ demo_cycle).
Defined.

(** ** The reset at the head of a cycle *)

Lemma zero_reset (g : globals) : unsaved_cells_zero (reset_samples g).
Proof. intros index _. destruct index; reflexivity. Qed.

(** A save leaves the cells of the dimensions that are not valid alone. *)
Lemma zero_save (index : Dimensions) (f : value_t -> value_t) (g : globals) :
  unsaved_cells_zero g -> unsaved_cells_zero (mark_valid index (store_cell index f g)).
Proof.
  intros H other Hv. rewrite is_valid_mark_valid in Hv.
  apply orb_false_iff in Hv. destruct Hv as [Hv Hne].
  cbn [mark_valid store_cell gData set_gData set_gIsValid].
  rewrite nth_update_nth_other; [apply H, Hv|].
  apply Nat.eqb_neq, Hne.
Qed.

Ltac zero_step :=
  cbv beta zeta;
  lazymatch goal with
  | |- wp (bind (read_register_value _ _) _) _ _ _ =>
      apply wp_bind, wp_read_register_value; [solve [auto] | intros ? _]
  | |- wp (bind (read_multi_value _ _ _) _) _ _ _ =>
      apply wp_bind, wp_read_multi_value; [solve [auto] | intros ? ? _ _]
  | |- wp (bind _ _) _ _ _ =>
      apply (wp_bind_inv unsaved_cells_zero); [|intros [] ? ?]
  | |- wp (ret _) _ _ _ => apply wp_ret; assumption
  | |- wp (if ?c then _ else _) _ _ _ => destruct c
  | |- wp (save_data_float _ _) _ _ _ => apply wp_save_data_float, zero_save; assumption
  | |- wp (save_data_uint8 _ _) _ _ _ => apply wp_save_data_uint8, zero_save; assumption
  | |- wp (save_data_uint16 _ _) _ _ _ => apply wp_save_data_uint16, zero_save; assumption
  end.

(** After a cycle, whatever the store held before it, the cell of every
    dimension that is not valid is zero. *)
Lemma gather_chart_data_zero (b : bus) (g : globals) :
  wp (gather_chart_data b) bus_event (fun _ g' => unsaved_cells_zero g') g.
Proof.
  unfold gather_chart_data.
  apply wp_bind, wp_put, wp_bind, wp_put.
  generalize (zero_reset g). unfold reset_samples.
  generalize (set_gIsValid 0 (set_gData (repeat 0 (dim_index MaxDimensions)) g)).
  intros g0 H0.
  repeat zero_step.
Qed.

(** The flags a cycle leaves are those of the registers it has just read. *)
Lemma gather_chart_data_measured (b : bus) (g g' : globals) (t : list event) :
  gather_chart_data b g = (t, Ret tt g') ->
  forall index, index <> MaxDimensions -> is_valid index g' = measured b index.
Proof.
  intros E index Hreal.
  destruct (gather_chart_data_returned _ _ _ _ E)
    as (cc & th & tl & vi & H33 & _ & _ & H30 & _ & _ & Htemp & Hlim & Hterm & Hvl & Hcl).
  destruct (proj2 (wp_returned _ _ _ _ _ _ _ (gather_chart_data_groups b g) E))
    as (ps & H01 & V1 & V2 & V3 & V4 & V5 & V6 & V7 & V8 & _).
  rewrite u8_byte_val in *. unfold c_true in *.
  destruct index; unfold measured, register_bit; rewrite ?H33, ?H01, ?H30;
    first [ contradiction
          | assumption
          | rewrite sample_is_valid;
            first [rewrite Htemp | rewrite Hlim | rewrite Hterm | rewrite Hvl | rewrite Hcl];
            repeat match goal with
                   | |- context [if ?c then _ else _] =>
                       match type of c with bool => destruct c end
                   end;
            reflexivity ].
Qed.

(** C8. At the start of every cycle all cells and all validity flags are
    reset: a cycle is the cycle run on the cleared store, so whatever the
    previous cycle left, it behaves the same and leaves the same samples;
    when it returns, and on a bus that answers it does, a dimension is
    valid exactly when the registers read in this very cycle say so, and
    the cell of every dimension that is not is zero, even if it was valid
    and held a value before.  A dimension whose validity flag is unset
    renders as the empty string. *)
Theorem samples_reset_every_cycle :
  (forall (b : bus) (fd every : Z) (data1 data2 : list value_t) (valid1 valid2 : Z),
      gather_chart_data b (mkGlobals fd every data1 valid1) =
      gather_chart_data b (mkGlobals fd every data2 valid2)) /\
  (forall (b : bus) (g : globals),
      gather_chart_data b g = gather_chart_data b (reset_samples g)) /\
  (forall (b : bus) (g : globals), responsive b -> returns (gather_chart_data b) g) /\
  (forall (b : bus) (g g' : globals) (t : list event),
      gather_chart_data b g = (t, Ret tt g') ->
      forall index,
        index <> MaxDimensions ->
        is_valid index g' = measured b index /\
        (measured b index = false ->
         nth (dim_index index) (gData g') 0 = 0 /\
         format_data_value index g' = EmptyString)) /\
  (forall (index : Dimensions) (g : globals),
      is_valid index g = false -> format_data_value index g = EmptyString).
Proof.
  assert (Hempty : forall index g,
             is_valid index g = false -> format_data_value index g = EmptyString).
  { intros index g H. rewrite format_data_value_sample. unfold sample.
    rewrite H. reflexivity. }
  split; [|split; [|split; [|split]]].
  - intros. unfold gather_chart_data. rewrite !bind_put. reflexivity.
  - intros b g. unfold gather_chart_data. rewrite !bind_put. reflexivity.
  - intros b g Hb. unfold gather_chart_data. repeat returns_step Hb.
  - intros b g g' t E index Hreal.
    pose proof (gather_chart_data_measured b g g' t E index Hreal) as Hvalid.
    split; [exact Hvalid|]. intros Hm. rewrite Hm in Hvalid.
    split; [|apply Hempty, Hvalid].
    exact (proj2 (wp_returned _ _ _ _ _ _ _ (gather_chart_data_zero b g) E) index Hvalid).
  - exact Hempty.
Qed.

Lemma bare_cycle :
  gather_chart_data bare_bus demo_samples =
    (fst (gather_chart_data bare_bus demo_samples), Ret tt bare_samples).
Proof. vm_compute. reflexivity. Qed.

Lemma samples_reset_every_cycle_witness :
  (is_valid batcharge demo_samples = true /\
   format_data_value batcharge demo_samples = "511.5") /\
  is_valid batcharge bare_samples = false /\
  nth (dim_index batcharge) (gData bare_samples) 0 = 0 /\
  format_data_value batcharge bare_samples = EmptyString.
Proof.
  split; [split; vm_compute; reflexivity|].
  destruct (proj1 (proj2 (proj2 (proj2 samples_reset_every_cycle)))
              bare_bus demo_samples bare_samples _ bare_cycle batcharge)
    as [Hvalid Hzero]; [discriminate|].
  split; [exact Hvalid | exact (Hzero eq_refl)].
Defined.
